(** * The file upload command of fabric-cli-ext, and its index update

    A shallow embedding of the two [uploadcmd] implementations of the
    repository:

    - [cmd/file/uploadcmd/uploadcmd.go], the variant that authenticates
      the update of the file index document with a pair of one-time
      passwords (module [OTP] below);
    - the second [package uploadcmd] source, which the repository
      holds in [scripts/integration.sh]: the variant that signs the
      update with an EC key (module [Sig] below).

    The two sources share most of their functions word for word; those
    are embedded once, in the common part.  Calls to collaborators that
    are not part of these sources (the HTTP client, the file system, the
    terminal, the JSON, URL, MIME, PEM and Sidetree libraries) are fields
    of a [World]; the calls with an effect are recorded in a trace. *)

From Stdlib Require Import ZArith Ascii String.
From Stdlib.Strings Require Import Byte.
From stdpp Require Import gmap strings list.

Local Open Scope string_scope.
Local Open Scope Z_scope.
Local Open Scope list_scope.

(** ** Go strings

    A Go string is a sequence of bytes, as a Rocq [string] is. *)

Abbreviation bytes := (list byte).

(** [[]byte(s)] and [string(b)]. *)
Definition bytes_of_string (s : string) : bytes := list_byte_of_string s.
Definition string_of_bytes (b : bytes) : string := string_of_list_byte b.

(** [len(s)] *)
Definition len (s : string) : Z := Z.of_nat (String.length s).

(** [strings.LastIndex(s, substr)]: the index of the last instance of
    [substr] in [s], or -1.  [LastIndex_at s substr i] searches the
    suffix [s] of a string that starts at index [i] of it. *)
Fixpoint LastIndex_at (s substr : string) (i : Z) : Z :=
  match s with
  | EmptyString => if String.prefix substr EmptyString then i else -1
  | String _ s' =>
      let r := LastIndex_at s' substr (i + 1) in
      if 0 <=? r then r
      else if String.prefix substr s then i else -1
  end.

Definition strings_LastIndex (s substr : string) : Z := LastIndex_at s substr 0.

(** The slice expressions [s[i:]] and [s[0:j]].  The sources only slice
    at an index that [strings.LastIndex] returned, or one past it, so the
    bounds check of Go never fires. *)
Fixpoint drop_string (n : nat) (s : string) : string :=
  match n, s with
  | O, _ => s
  | S n', String _ s' => drop_string n' s'
  | S _, EmptyString => EmptyString
  end.

Fixpoint take_string (n : nat) (s : string) : string :=
  match n, s with
  | S n', String a s' => String a (take_string n' s')
  | _, _ => EmptyString
  end.

Definition slice_from (s : string) (i : Z) : string := drop_string (Z.to_nat i) s.
Definition slice_to (s : string) (j : Z) : string := take_string (Z.to_nat j) s.

(** [strings.Split(s, sep)] for a separator of one byte, which is how
    the source calls it ([";"]): the pieces between the separators, one
    more than there are separators. *)
Fixpoint Split_byte (s : string) (sep : ascii) : list string :=
  match s with
  | EmptyString => [EmptyString]
  | String a s' =>
      match Split_byte s' sep with
      | piece :: pieces =>
          if Ascii.eqb a sep then EmptyString :: piece :: pieces
          else String a piece :: pieces
      | [] => [String a EmptyString]
      end
  end.

(** [strings.ToLower(s)].  For a string of ASCII bytes Go lowers the
    bytes ['A'..'Z'] and keeps the others; a string with a byte of 0x80 or
    more goes through [strings.Map(unicode.ToLower, s)], whose case
    tables are not part of the sources: that path is the parameter
    [unicode_lower]. *)
Definition is_ascii_byte (a : ascii) : bool := (nat_of_ascii a <? 128)%nat.

Fixpoint isASCII (s : string) : bool :=
  match s with
  | EmptyString => true
  | String a s' => is_ascii_byte a && isASCII s'
  end.

Definition lower_byte (a : ascii) : ascii :=
  let n := nat_of_ascii a in
  if ((65 <=? n) && (n <=? 90))%nat then ascii_of_nat (n + 32) else a.

Fixpoint lower_ascii (s : string) : string :=
  match s with
  | EmptyString => EmptyString
  | String a s' => String (lower_byte a) (lower_ascii s')
  end.

Definition strings_ToLower (unicode_lower : string -> string) (s : string) : string :=
  if isASCII s then lower_ascii s else unicode_lower s.

(** ** Errors *)

(** The text of an error that a collaborator returned. *)
Definition ext_error := string.

(** The errors of the two sources: the package level [err...] values and
    one constructor per [errors.New], [errors.Errorf] and
    [errors.WithMessagef] call, with the arguments of its format. *)
Inductive error : Type :=
  | errURLRequired
  | errFilesRequired
  | errFileIndexURLRequired
  | errFileIndexUpdateOTPRequired        (* errFileIndexUpdatePWDRequired in [Sig] *)
  | errFileIndexNextUpdateOTPRequired    (* errFileIndexNextUpdatePWDRequired in [Sig] *)
  | errNoFileExtension
  | errUnknownExtension
  | errSigningKeyOrFileRequired
  | errOnlyOneOfSigningKeyOrFileRequired
  | errPrivateKeyNotFoundInPEM
  | errInvalidURL (cause : ext_error) (url : string)      (* "invalid URL [%s]" *)
  | errNoBasePath                                         (* "invalid URL - no base path found" *)
  | errInvalidFileIndexURL (url : string)                 (* "invalid file index URL: [%s]" *)
  | errUploadStatus (code : Z) (msg : string)             (* "status code %d: %s" *)
  | errUpdateStatus (code : Z) (msg : string)             (* "error updating file index document. Status code %d: %s" *)
  | errFileIndexNotFound (url : string)                   (* "file index document [%s] not found" *)
  | errFileIndexStatus (url : string) (code : Z) (msg : string)
  | errBasePathMismatch (docBasePath basePath : string)   (* "base path of file index doc does not match ..." *)
  | errUniqueSuffixNotProvided (id : string)              (* "unique suffix not provided in URL [%s]" *)
  | errExternal (e : ext_error).

Inductive result (A : Type) : Type :=
  | Ok (a : A)
  | Err (e : error).
Arguments Ok {A} a.
Arguments Err {A} e.

(** ** Constants *)

Definition msgAborted : string := "Operation aborted".
Definition msgContinueOrAbort : string := "Enter Y to continue or N to abort ".
Definition sha2_256 : Z := 18.
Definition signingAlgorithm : string := "ES256".
Definition jsonPatchBasePath : string := "/fileIndex/mappings/".
Definition jsonPatchAddOp : string := "add".
Definition jsonPatchReplaceOp : string := "replace".
Definition http_StatusOK : Z := 200.
Definition http_StatusNotFound : Z := 404.

(** ** getUniqueSuffix *)

Definition getUniqueSuffix (id : string) : result string :=
  let p := strings_LastIndex id ":" in
  if p =? -1 then Err (errUniqueSuffixNotProvided id)
  else Ok (slice_from id (p + 1)).

(** ** Data *)

(** A result with the errors of a collaborator. *)
Definition ext (A : Type) : Type := ext_error + A.

(** [httpclient.HTTPResponse], with the fields the sources read. *)
Record HTTPResponse : Type := mkHTTPResponse {
  StatusCode : Z;
  ErrorMsg : string;
  Payload : bytes
}.

(** [url.URL]: the sources read its [Path]. *)
Record URL : Type := mkURL { url_Path : string }.

(** [fileInfo]; [ID] is empty until the file is uploaded. *)
Record fileInfo : Type := mkFileInfo {
  Name : string;
  Content : bytes;
  ContentType : string;
  ID : string
}.

(** [files] is a slice of pointers to [fileInfo] ([getFiles] appends what
    [getFileInfo] returns, a [*fileInfo]), every one of them allocated by
    its own call of [getFileInfo]: the list holds the objects, and an
    assignment through the i-th pointer is an update at index i. *)
Abbreviation files := (list fileInfo).

Definition set_ID (id : string) (f : fileInfo) : fileInfo :=
  {| Name := Name f; Content := Content f; ContentType := ContentType f; ID := id |}.

(** [uploadFile], the body of an upload request. *)
Record uploadFile : Type := mkUploadFile {
  uf_ContentType : string;
  uf_Content : bytes
}.

(** [jsonPatch], one operation of the JSON patch. *)
Record jsonPatch : Type := mkJsonPatch {
  Op : string;
  Path : string;
  Value : string
}.

(** [model.FileIndex] and [model.FileIndexDoc], with the fields the
    sources read. *)
Record model_FileIndex : Type := mkFileIndex {
  BasePath : string;
  Mappings : gmap string string
}.

Record model_FileIndexDoc : Type := mkFileIndexDoc {
  FileIndex : model_FileIndex
}.

(** [command], the flags and what [validateAndProcessArgs] derives from
    them.  The signing variant calls the two passwords
    [fileIndexUpdatePWD] and [fileIndexNextUpdatePWD] and adds the two
    signing key fields, which the password variant does not have (and
    never reads here). *)
Record command : Type := mkCommand {
  file : string;
  url : string;
  basePath : string;
  fileIndexURL : string;
  fileIndexBaseURL : string;
  fileIndexUpdateOTP : string;
  fileIndexNextUpdateOTP : string;
  fileIndexSigningKeyFile : string;
  fileIndexSigningKeyString : string;
  noPrompt : bool
}.

Definition set_basePath (p : string) (c : command) : command :=
  {| file := file c; url := url c; basePath := p;
     fileIndexURL := fileIndexURL c; fileIndexBaseURL := fileIndexBaseURL c;
     fileIndexUpdateOTP := fileIndexUpdateOTP c;
     fileIndexNextUpdateOTP := fileIndexNextUpdateOTP c;
     fileIndexSigningKeyFile := fileIndexSigningKeyFile c;
     fileIndexSigningKeyString := fileIndexSigningKeyString c;
     noPrompt := noPrompt c |}.

Definition set_fileIndexBaseURL (u : string) (c : command) : command :=
  {| file := file c; url := url c; basePath := basePath c;
     fileIndexURL := fileIndexURL c; fileIndexBaseURL := u;
     fileIndexUpdateOTP := fileIndexUpdateOTP c;
     fileIndexNextUpdateOTP := fileIndexNextUpdateOTP c;
     fileIndexSigningKeyFile := fileIndexSigningKeyFile c;
     fileIndexSigningKeyString := fileIndexSigningKeyString c;
     noPrompt := noPrompt c |}.

(** ** Effects

    Every call that leaves the process, or reads from outside it, is an
    event; the trace of a run is the list of its events, in order. *)
Inductive Event : Type :=
  | EvGet (url : string)                     (* c.client.Get(url) *)
  | EvPost (url : string) (req : bytes)      (* c.client.Post(url, req) *)
  | EvReadFile (path : string)               (* ioutil.ReadFile(path) *)
  | EvFprintln (text : string)               (* c.Fprintln(text) *)
  | EvFprint (text : string)                 (* c.Fprint(text) *)
  | EvPrompt                                 (* c.Prompt() *)
  | EvNewUpdateRequest (suffix : string).    (* helper.NewUpdateRequest(info) *)

Abbreviation Trace := (list Event).

Definition is_network (e : Event) : bool :=
  match e with EvGet _ | EvPost _ _ => true | _ => false end.

Definition is_post (e : Event) : bool :=
  match e with EvPost _ _ => true | _ => false end.

(** The collaborators of both sources.  The pure ones are functions of
    their arguments; what an effectful one answers may depend on
    everything that happened before the call, so it also takes the trace
    up to the call. *)
Record World : Type := mkWorld {
  url_Parse : string -> ext URL;
  mime_TypeByExtension : string -> string;
  filepath_Clean : string -> string;
  json_Marshal_uploadFile : uploadFile -> ext bytes;
  json_Marshal_patch : list jsonPatch -> ext bytes;
  json_Unmarshal_string : bytes -> ext string;
  json_Unmarshal_FileIndexDoc : bytes -> ext model_FileIndexDoc;
  (* the text of a [files] value under the verb %s, and [files.String()] *)
  fmt_files : files -> string;
  files_String : files -> string;
  (* the non-ASCII path of strings.ToLower *)
  unicode_lower : string -> string;
  client_Get : Trace -> string -> ext HTTPResponse;
  client_Post : Trace -> string -> bytes -> ext HTTPResponse;
  ioutil_ReadFile : Trace -> string -> ext bytes;
  Prompt : Trace -> string;
  Fprintln : Trace -> string -> option ext_error;
  Fprint : Trace -> string -> option ext_error
}.

(** A computation takes the trace so far and returns the trace it leaves
    and a value or the error it stopped with. *)
Definition M (A : Type) : Type := Trace -> Trace * result A.

Definition ret {A} (a : A) : M A := fun tr => (tr, Ok a).

Definition fail {A} (e : error) : M A := fun tr => (tr, Err e).

Definition bind {A B} (m : M A) (k : A -> M B) : M B :=
  fun tr =>
    match m tr with
    | (tr', Ok a) => k a tr'
    | (tr', Err e) => (tr', Err e)
    end.

Notation "x <- m ;; k" := (bind m (fun x => k))
  (at level 100, m at next level, right associativity).

(** A pure step that may fail. *)
Definition lift {A} (r : result A) : M A := fun tr => (tr, r).

(** [v, err := f(...); if err != nil { return ..., err }] for a
    collaborator [f]. *)
Definition of_ext {A} (r : ext A) : result A :=
  match r with
  | inl e => Err (errExternal e)
  | inr a => Ok a
  end.

(** A call with an effect: the event is recorded, the answer is the one
    the world gives after the trace so far. *)
Definition call {A} (ev : Event) (answer : Trace -> ext A) : M A :=
  fun tr => (tr ++ [ev], of_ext (answer tr)).

(** A call that returns only an error, such as [c.Fprintln]. *)
Definition call_err (ev : Event) (answer : Trace -> option ext_error) : M unit :=
  fun tr =>
    (tr ++ [ev], match answer tr with
                 | Some e => Err (errExternal e)
                 | None => Ok tt
                 end).

Definition newline : string := String (ascii_of_nat 10) EmptyString.

(** ** The functions that the two sources share *)

Section Common.

Variable w : World.

Definition contentTypeFromFileName (fileName : string) : result string :=
  let p := strings_LastIndex fileName "." in
  if p =? -1 then Err errNoFileExtension
  else
    let contentType := mime_TypeByExtension w (slice_from fileName p) in
    if String.eqb contentType EmptyString then Err errUnknownExtension
    else Ok contentType.

(** The name that [getFileInfo] derives from a path. *)
Definition fileNameOf (path : string) : string :=
  let p := strings_LastIndex path "/" in
  if p =? -1 then path else slice_from path (p + 1).

Definition getFileInfo (path : string) : M fileInfo :=
  let fileName := fileNameOf path in
  contentType <- lift (contentTypeFromFileName fileName) ;;
  content <- call (EvReadFile (filepath_Clean w path))
                  (fun tr => ioutil_ReadFile w tr (filepath_Clean w path)) ;;
  ret {| Name := fileName; Content := content;
         ContentType := contentType; ID := EmptyString |}.

(** The loop of [getFiles], with the slice [f] built so far. *)
Fixpoint getFiles_loop (paths : list string) (f : files) : M files :=
  match paths with
  | [] => ret f
  | filePath :: rest =>
      fileInfo <- getFileInfo filePath ;;
      getFiles_loop rest (f ++ [fileInfo])
  end.

Definition getFiles (c : command) : M files :=
  getFiles_loop (Split_byte (file c) ";") [].

Definition getFileIndex (c : command) : M model_FileIndex :=
  resp <- call (EvGet (fileIndexURL c))
               (fun tr => client_Get w tr (fileIndexURL c)) ;;
  if negb (StatusCode resp =? http_StatusOK) then
    if StatusCode resp =? http_StatusNotFound then
      fail (errFileIndexNotFound (fileIndexURL c))
    else
      fail (errFileIndexStatus (fileIndexURL c) (StatusCode resp) (ErrorMsg resp))
  else
    fileIdxDoc <- lift (of_ext (json_Unmarshal_FileIndexDoc w (Payload resp))) ;;
    (* Validate that the base path is correct *)
    if negb (String.eqb (BasePath (FileIndex fileIdxDoc)) (basePath c)) then
      fail (errBasePathMismatch (BasePath (FileIndex fileIdxDoc)) (basePath c))
    else ret (FileIndex fileIdxDoc).

(** The text that [confirmUpload] formats:
    [fmt.Sprintf("Uploading the following files to [%s]\n%s\n%s", url, files, msgContinueOrAbort)]. *)
Definition confirmPrompt (url : string) (fs : files) : string :=
  ("Uploading the following files to [" +:+ url +:+ "]" +:+ newline
     +:+ fmt_files w fs +:+ newline +:+ msgContinueOrAbort)%string.

(** [confirmUpload] prompts the user for confirmation of the upload. *)
Definition confirmUpload (url : string) (fs : files) : M bool :=
  let prompt := confirmPrompt url fs in
  _ <- call_err (EvFprintln prompt) (fun tr => Fprintln w tr prompt) ;;
  fun tr =>
    (tr ++ [EvPrompt],
     Ok (String.eqb (strings_ToLower (unicode_lower w) (Prompt w tr)) "y")).

Definition upload (url contentType : string) (fileBytes : bytes) : M string :=
  let req := {| uf_ContentType := contentType; uf_Content := fileBytes |} in
  reqBytes <- lift (of_ext (json_Marshal_uploadFile w req)) ;;
  resp <- call (EvPost url reqBytes) (fun tr => client_Post w tr url reqBytes) ;;
  if negb (StatusCode resp =? http_StatusOK) then
    fail (errUploadStatus (StatusCode resp) (ErrorMsg resp))
  else
    fileID <- lift (of_ext (json_Unmarshal_string w (Payload resp))) ;;
    ret fileID.

(** The upload loop of [run], over the indices of [f]: the file at
    index [i] is uploaded, and the ID that came back is stored in it. *)
Fixpoint upload_loop (c : command) (idxs : list nat) (f : files) : M files :=
  match idxs with
  | [] => ret f
  | i :: rest =>
      match f !! i with
      | None => ret f
      | Some file =>
          id <- upload (url c) (ContentType file) (Content file) ;;
          upload_loop c rest (<[i := set_ID id file]> f)
      end
  end.

Definition uploadFiles (c : command) (f : files) : M files :=
  upload_loop c (seq 0 (length f)) f.

(** The entry that the loop of [getUpdatePatch] builds for one file. *)
Definition patchEntry (fileIdx : model_FileIndex) (f : fileInfo) : jsonPatch :=
  let p := {| Op := EmptyString; Path := (jsonPatchBasePath +:+ Name f)%string; Value := ID f |} in
  match Mappings fileIdx !! Name f with
  | Some _ => {| Op := jsonPatchReplaceOp; Path := Path p; Value := Value p |}
  | None => {| Op := jsonPatchAddOp; Path := Path p; Value := Value p |}
  end.

(** The loop of [getUpdatePatch], with the slice [patch] built so far. *)
Fixpoint patch_loop (fileIdx : model_FileIndex) (fs : files)
    (patch : list jsonPatch) : list jsonPatch :=
  match fs with
  | [] => patch
  | f :: rest => patch_loop fileIdx rest (patch ++ [patchEntry fileIdx f])
  end.

(** [updateIndexFile], over the [getUpdatePatch] and the
    [getUpdateRequest] of the variant. *)
Definition updateIndexFile {P : Type}
    (getUpdatePatch : model_FileIndex -> files -> result P)
    (getUpdateRequest : command -> P -> M bytes)
    (c : command) (fileIdx : model_FileIndex) (fs : files) : M unit :=
  patch <- lift (getUpdatePatch fileIdx fs) ;;
  req <- getUpdateRequest c patch ;;
  resp <- call (EvPost (fileIndexBaseURL c) req)
               (fun tr => client_Post w tr (fileIndexBaseURL c) req) ;;
  if negb (StatusCode resp =? http_StatusOK) then
    fail (errUpdateStatus (StatusCode resp) (ErrorMsg resp))
  else ret tt.

(** What [run] does once the upload is confirmed or needs no
    confirmation. *)
Definition run_upload (updateIndex : command -> model_FileIndex -> files -> M unit)
    (c : command) (fileIdx : model_FileIndex) (f : files) : M unit :=
  f' <- uploadFiles c f ;;
  _ <- updateIndex c fileIdx f' ;;
  call_err (EvFprint (files_String w f')) (fun tr => Fprint w tr (files_String w f')).

(** [run], over the [updateIndexFile] of the variant. *)
Definition run (updateIndex : command -> model_FileIndex -> files -> M unit)
    (c : command) : M unit :=
  fileIdx <- getFileIndex c ;;
  f <- getFiles c ;;
  if negb (noPrompt c) then
    confirmed <- confirmUpload (url c) f ;;
    if negb confirmed then
      call_err (EvFprintln msgAborted) (fun tr => Fprintln w tr msgAborted)
    else run_upload updateIndex c fileIdx f
  else run_upload updateIndex c fileIdx f.

(** The command as cobra executes it: [PreRunE], and [RunE] if that
    returned no error. *)
Definition execute (validateAndProcessArgs : command -> result command)
    (run : command -> M unit) (c : command) : M unit :=
  c' <- lift (validateAndProcessArgs c) ;;
  run c'.

End Common.

(** ** The variant with one-time passwords ([uploadcmd.go]) *)

Module OTP.

(** [helper.UpdateRequestInfo] of the Sidetree library of this variant. *)
Record UpdateRequestInfo (Patch : Type) : Type := mkUpdateRequestInfo {
  DidUniqueSuffix : string;
  UpdateOTP : string;
  NextUpdateOTP : string;
  Patch_ : Patch;
  MultihashCode : Z
}.
Arguments mkUpdateRequestInfo {Patch}.

(** The libraries only this variant calls. *)
Record Lib : Type := mkLib {
  jsonpatch_Patch : Type;
  jsonpatch_DecodePatch : bytes -> ext jsonpatch_Patch;
  docutil_EncodeToString : bytes -> string;
  helper_NewUpdateRequest :
    Trace -> UpdateRequestInfo jsonpatch_Patch -> ext bytes
}.

Section Variant.

Variable w : World.
Variable l : Lib.

Definition validateAndProcessArgs (c : command) : result command :=
  if String.eqb (url c) EmptyString then Err errURLRequired
  else
    match url_Parse w (url c) with
    | inl err => Err (errInvalidURL err (url c))
    | inr u =>
        if String.eqb (url_Path u) EmptyString then Err errNoBasePath
        else
          let c := set_basePath (url_Path u) c in
          if String.eqb (file c) EmptyString then Err errFilesRequired
          else if String.eqb (fileIndexURL c) EmptyString then Err errFileIndexURLRequired
          else
            let pos := strings_LastIndex (fileIndexURL c) "/" in
            if pos =? -1 then Err (errInvalidFileIndexURL (fileIndexURL c))
            else if String.eqb (fileIndexUpdateOTP c) EmptyString then
              Err errFileIndexUpdateOTPRequired
            else if String.eqb (fileIndexNextUpdateOTP c) EmptyString then
              Err errFileIndexNextUpdateOTPRequired
            else Ok (set_fileIndexBaseURL (slice_to (fileIndexURL c) pos) c)
    end.

Definition getUpdatePatch (fileIdx : model_FileIndex) (fs : files)
    : result (jsonpatch_Patch l) :=
  let patch := patch_loop fileIdx fs [] in
  match of_ext (json_Marshal_patch w patch) with
  | Err err => Err err
  | Ok patchBytes =>
      match of_ext (jsonpatch_DecodePatch l patchBytes) with
      | Err err => Err err
      | Ok jsonPatch => Ok jsonPatch
      end
  end.

Definition getUpdateRequest (c : command) (patch : jsonpatch_Patch l) : M bytes :=
  uniqueSuffix <- lift (getUniqueSuffix (fileIndexURL c)) ;;
  let info :=
    {| DidUniqueSuffix := uniqueSuffix;
       UpdateOTP := docutil_EncodeToString l (bytes_of_string (fileIndexUpdateOTP c));
       NextUpdateOTP := docutil_EncodeToString l (bytes_of_string (fileIndexNextUpdateOTP c));
       Patch_ := patch;
       MultihashCode := sha2_256 |} in
  call (EvNewUpdateRequest uniqueSuffix)
       (fun tr => helper_NewUpdateRequest l tr info).

Definition updateIndexFile : command -> model_FileIndex -> files -> M unit :=
  updateIndexFile w getUpdatePatch getUpdateRequest.

Definition run : command -> M unit := run w updateIndexFile.

Definition execute : command -> M unit := execute validateAndProcessArgs run.

End Variant.

End OTP.

(** ** The variant with a signing key (the source in [scripts/integration.sh]) *)

Module Sig.

(** [helper.UpdateRequestInfo] of the Sidetree library of this variant. *)
Record UpdateRequestInfo (Patch Signer : Type) : Type := mkUpdateRequestInfo {
  DidUniqueSuffix : string;
  UpdateRevealValue : bytes;
  NextUpdateRevealValue : bytes;
  Patch_ : Patch;
  MultihashCode : Z;
  Signer_ : Signer
}.
Arguments mkUpdateRequestInfo {Patch Signer}.

(** The libraries only this variant calls.  [pem_Decode] gives the
    [Bytes] of the block that [pem.Decode] found, if it found one. *)
Record Lib : Type := mkLib {
  patch_Patch : Type;
  ecdsa_PrivateKey : Type;
  helper_Signer : Type;
  patch_NewJSONPatch : string -> ext patch_Patch;
  pem_Decode : bytes -> option bytes;
  x509_ParseECPrivateKey : bytes -> ext ecdsa_PrivateKey;
  ecsigner_New : ecdsa_PrivateKey -> string -> string -> helper_Signer;
  model_UpdateKeyID : string;
  helper_NewUpdateRequest :
    Trace -> UpdateRequestInfo patch_Patch helper_Signer -> ext bytes
}.

Section Variant.

Variable w : World.
Variable l : Lib.

Definition validateSigningKey (c : command) : option error :=
  if String.eqb (fileIndexSigningKeyFile c) EmptyString
     && String.eqb (fileIndexSigningKeyString c) EmptyString then
    Some errSigningKeyOrFileRequired
  else if negb (String.eqb (fileIndexSigningKeyFile c) EmptyString)
          && negb (String.eqb (fileIndexSigningKeyString c) EmptyString) then
    Some errOnlyOneOfSigningKeyOrFileRequired
  else None.

Definition validateAndProcessArgs (c : command) : result command :=
  if String.eqb (url c) EmptyString then Err errURLRequired
  else
    match url_Parse w (url c) with
    | inl err => Err (errInvalidURL err (url c))
    | inr u =>
        if String.eqb (url_Path u) EmptyString then Err errNoBasePath
        else
          let c := set_basePath (url_Path u) c in
          if String.eqb (file c) EmptyString then Err errFilesRequired
          else if String.eqb (fileIndexURL c) EmptyString then Err errFileIndexURLRequired
          else
            let pos := strings_LastIndex (fileIndexURL c) "/" in
            if pos =? -1 then Err (errInvalidFileIndexURL (fileIndexURL c))
            else if String.eqb (fileIndexUpdateOTP c) EmptyString then
              Err errFileIndexUpdateOTPRequired
            else if String.eqb (fileIndexNextUpdateOTP c) EmptyString then
              Err errFileIndexNextUpdateOTPRequired
            else
              match validateSigningKey c with
              | Some err => Err err
              | None => Ok (set_fileIndexBaseURL (slice_to (fileIndexURL c) pos) c)
              end
    end.

Definition privateKeyFromPEM (privateKeyPEM : bytes) : result (ecdsa_PrivateKey l) :=
  match pem_Decode l privateKeyPEM with
  | None => Err errPrivateKeyNotFoundInPEM
  | Some privBlockBytes => of_ext (x509_ParseECPrivateKey l privBlockBytes)
  end.

Definition privateKeyFromFile (file : string) : M (ecdsa_PrivateKey l) :=
  keyBytes <- call (EvReadFile (filepath_Clean w file))
                   (fun tr => ioutil_ReadFile w tr (filepath_Clean w file)) ;;
  lift (privateKeyFromPEM keyBytes).

Definition signingPrivateKey (c : command) : M (ecdsa_PrivateKey l) :=
  if negb (String.eqb (fileIndexSigningKeyFile c) EmptyString) then
    privateKeyFromFile (fileIndexSigningKeyFile c)
  else lift (privateKeyFromPEM (bytes_of_string (fileIndexSigningKeyString c))).

Definition updateKeySigner (c : command) : M (helper_Signer l) :=
  privateKey <- signingPrivateKey c ;;
  ret (ecsigner_New l privateKey signingAlgorithm (model_UpdateKeyID l)).

Definition getUpdatePatch (fileIdx : model_FileIndex) (fs : files) : result string :=
  let patch := patch_loop fileIdx fs [] in
  match of_ext (json_Marshal_patch w patch) with
  | Err err => Err err
  | Ok patchBytes => Ok (string_of_bytes patchBytes)
  end.

Definition getUpdateRequest (c : command) (patchStr : string) : M bytes :=
  uniqueSuffix <- lift (getUniqueSuffix (fileIndexURL c)) ;;
  updatePatch <- lift (of_ext (patch_NewJSONPatch l patchStr)) ;;
  updateKeySigner <- updateKeySigner c ;;
  let info :=
    {| DidUniqueSuffix := uniqueSuffix;
       UpdateRevealValue := bytes_of_string (fileIndexUpdateOTP c);
       NextUpdateRevealValue := bytes_of_string (fileIndexNextUpdateOTP c);
       Patch_ := updatePatch;
       MultihashCode := sha2_256;
       Signer_ := updateKeySigner |} in
  call (EvNewUpdateRequest uniqueSuffix)
       (fun tr => helper_NewUpdateRequest l tr info).

Definition updateIndexFile : command -> model_FileIndex -> files -> M unit :=
  updateIndexFile w getUpdatePatch getUpdateRequest.

Definition run : command -> M unit := run w updateIndexFile.

Definition execute : command -> M unit := execute validateAndProcessArgs run.

End Variant.

End Sig.

(** ** Vocabulary of the statements *)

(** Whether the byte [a] occurs in [s]. *)
Fixpoint has_byte (a : ascii) (s : string) : bool :=
  match s with
  | EmptyString => false
  | String b s' => Ascii.eqb b a || has_byte a s'
  end.


(** ** A sample deployment

    Concrete collaborators, to run the commands on: a host [h] whose
    DCAS endpoint is [/content], an index document at
    [http://h/file/file:idx:ABC123], and stand-ins for the libraries. *)

Definition count_posts (tr : Trace) : nat :=
  length (List.filter is_post tr).

(** DCAS answers 200 with an ID for the content, except to the POST
    number [fail_at] (counting from 0), which it answers with 500. *)
Definition sample_post (fail_at : option nat)
    (tr : Trace) (url : string) (req : bytes) : ext HTTPResponse :=
  if match fail_at with
     | Some n => Nat.eqb (count_posts tr) n
     | None => false
     end
  then inr {| StatusCode := 500; ErrorMsg := "storage unavailable"; Payload := [] |}
  else inr {| StatusCode := 200; ErrorMsg := EmptyString;
              Payload := bytes_of_string "id of " ++ req |}.

(** The terminal accepts every line. *)
Definition println_ok (tr : Trace) (text : string) : option ext_error := None.

Definition sample_world (doc : model_FileIndexDoc)
    (post : Trace -> string -> bytes -> ext HTTPResponse)
    (answer : string)
    (println : Trace -> string -> option ext_error) : World :=
  {| url_Parse := fun s =>
       if String.prefix "http://h/" s then inr {| url_Path := drop_string 8 s |}
       else inl "unsupported URL";
     mime_TypeByExtension := fun e =>
       if String.eqb e ".json" then "application/json"
       else if String.eqb e ".png" then "image/png"
       else EmptyString;
     filepath_Clean := fun p => p;
     json_Marshal_uploadFile := fun r => inr (uf_Content r);
     json_Marshal_patch := fun p =>
       inr (bytes_of_string (String.concat ";" (map Path p)));
     json_Unmarshal_string := fun b => inr (string_of_bytes b);
     json_Unmarshal_FileIndexDoc := fun _ => inr doc;
     fmt_files := fun fs => String.concat ";" (map Name fs);
     files_String := fun fs => String.concat ";" (map ID fs);
     unicode_lower := fun s => s;
     client_Get := fun _ _ => inr {| StatusCode := 200; ErrorMsg := EmptyString; Payload := [] |};
     client_Post := post;
     ioutil_ReadFile := fun _ p => inr (bytes_of_string "content of " ++ bytes_of_string p);
     Prompt := fun _ => answer;
     Fprintln := println;
     Fprint := fun _ _ => None |}.

(** The libraries of the password variant; the typed patch is stood for
    by the number of bytes it was decoded from. *)
Definition sample_otp_lib (decode : bytes -> ext nat) : OTP.Lib :=
  {| OTP.jsonpatch_Patch := nat;
     OTP.jsonpatch_DecodePatch := decode;
     OTP.docutil_EncodeToString := string_of_bytes;
     OTP.helper_NewUpdateRequest := fun _ info =>
       inr (bytes_of_string (OTP.DidUniqueSuffix _ info)) |}.

Definition decode_accepts (b : bytes) : ext nat := inr (length b).
Definition decode_rejects (b : bytes) : ext nat := inl "invalid patch".

(** The libraries of the signing variant, with the same stand-in for the
    typed patch; keys and signers are stood for by the bytes of the key. *)
Definition sample_sig_lib (newPatch : string -> ext nat) : Sig.Lib :=
  {| Sig.patch_Patch := nat;
     Sig.ecdsa_PrivateKey := bytes;
     Sig.helper_Signer := bytes;
     Sig.patch_NewJSONPatch := newPatch;
     Sig.pem_Decode := fun b => match b with [] => None | _ => Some b end;
     Sig.x509_ParseECPrivateKey := fun b => inr b;
     Sig.ecsigner_New := fun k _ _ => k;
     Sig.model_UpdateKeyID := "update-key";
     Sig.helper_NewUpdateRequest := fun _ info =>
       inr (bytes_of_string (Sig.DidUniqueSuffix _ _ info)) |}.

Definition newPatch_accepts (s : string) : ext nat := inr (String.length s).
Definition newPatch_rejects (s : string) : ext nat := inl "invalid patch".

Definition sample_doc (basePath : string) (m : gmap string string) : model_FileIndexDoc :=
  {| FileIndex := {| BasePath := basePath; Mappings := m |} |}.

(** The flags of a sample invocation, for the files [filesFlag]. *)
Definition sample_command (filesFlag : string) (noPromptFlag : bool)
    (keyFile keyString : string) : command :=
  {| file := filesFlag;
     url := "http://h/content";
     basePath := EmptyString;
     fileIndexURL := "http://h/file/file:idx:ABC123";
     fileIndexBaseURL := EmptyString;
     fileIndexUpdateOTP := "pwd1";
     fileIndexNextUpdateOTP := "pwd2";
     fileIndexSigningKeyFile := keyFile;
     fileIndexSigningKeyString := keyString;
     noPrompt := noPromptFlag |}.

(** A sample command after [validateAndProcessArgs]. *)
Definition validated (c : command) : command :=
  set_fileIndexBaseURL "http://h/file" (set_basePath "/content" c).

(** The deployment with an empty index for [/content], a user who
    confirms, and no failure. *)
Definition world_ok : World :=
  sample_world (sample_doc "/content" ∅) (sample_post None) "y" println_ok.

(** The index document belongs to another base path. *)
Definition world_other_path : World :=
  sample_world (sample_doc "/other" ∅) (sample_post None) "y" println_ok.

(** The index document has the base path with a trailing slash. *)
Definition world_slash : World :=
  sample_world (sample_doc "/content/" ∅) (sample_post None) "y" println_ok.

(** The user answers [answer] to the prompt. *)
Definition world_answer (answer : string) : World :=
  sample_world (sample_doc "/content" ∅) (sample_post None) answer println_ok.

(** DCAS fails on the second upload. *)
Definition world_second_upload_fails : World :=
  sample_world (sample_doc "/content" ∅) (sample_post (Some 1%nat)) "y" println_ok.

(** ** The uploads of a run *)

(** [ev] is the POST of [file] to the upload endpoint of [c]. *)
Definition is_upload_post (w : World) (c : command) (file : fileInfo) (ev : Event) : Prop :=
  exists reqBytes,
    json_Marshal_uploadFile w
      {| uf_ContentType := ContentType file; uf_Content := Content file |} = inr reqBytes
    /\ ev = EvPost (url c) reqBytes.

(** The upload loop as a recursion over the files that are left, which
    returns them with their IDs. *)
Fixpoint upload_each (w : World) (c : command) (todo : files) : M files :=
  match todo with
  | [] => ret []
  | file :: rest =>
      id <- upload w (url c) (ContentType file) (Content file) ;;
      rest' <- upload_each w c rest ;;
      ret (set_ID id file :: rest')
  end.

(** [uploaded w c tr fs ids tr']: from the trace [tr] on, the files [fs]
    were uploaded one after the other, in their order and each with
    success; [ids] are the IDs that came back and [tr'] is the trace after
    the last of them. *)
Inductive uploaded (w : World) (c : command) : Trace -> files -> list string -> Trace -> Prop :=
  | uploaded_nil (tr : Trace) : uploaded w c tr [] [] tr
  | uploaded_cons (tr tr1 tr2 : Trace) (file : fileInfo) (id : string)
      (rest : files) (ids : list string) :
      upload w (url c) (ContentType file) (Content file) tr = (tr1, Ok id) ->
      uploaded w c tr1 rest ids tr2 ->
      uploaded w c tr (file :: rest) (id :: ids) tr2.

(** An empty index for [/content] and one uploaded file. *)
Definition sample_index : model_FileIndex :=
  {| BasePath := "/content"; Mappings := ∅ |}.

Definition sample_uploaded : files :=
  [ {| Name := "a.json"; Content := bytes_of_string "A";
       ContentType := "application/json"; ID := "X" |} ].

(** [run], started at the trace [tr0], reaches its upload loop at the
    trace [tr] with the index [fileIdx] and the files [f]: the index was
    fetched and the files were loaded, and the upload needed no
    confirmation or was confirmed. *)
Definition reaches_upload (w : World) (c : command) (tr0 : Trace)
    (fileIdx : model_FileIndex) (f : files) (tr : Trace) : Prop :=
  exists tr1 tr2,
    getFileIndex w c tr0 = (tr1, Ok fileIdx)
    /\ getFiles w c tr1 = (tr2, Ok f)
    /\ (noPrompt c = true /\ tr = tr2
        \/ noPrompt c = false /\ confirmUpload w (url c) f tr2 = (tr, Ok true)).

(** The files of the sample invocation [a.json;b.png;c.json], loaded. *)
Definition sample_loaded : files :=
  [ {| Name := "a.json"; Content := bytes_of_string "content of a.json";
       ContentType := "application/json"; ID := EmptyString |};
    {| Name := "b.png"; Content := bytes_of_string "content of b.png";
       ContentType := "image/png"; ID := EmptyString |};
    {| Name := "c.json"; Content := bytes_of_string "content of c.json";
       ContentType := "application/json"; ID := EmptyString |} ].

(** ** Vocabulary of the further properties *)

(** Every event that the computation [m] adds to a trace satisfies [Q]. *)
Definition emits {A : Type} (Q : Event -> Prop) (m : M A) : Prop :=
  forall tr, exists evs, fst (m tr) = tr ++ evs /\ Forall Q evs.

(** The events that a run of the command [c] may add after the GET of
    the index document: no further GET, a POST only to the upload URL or to
    the base URL of the index document, the prompt and the lines that
    [Fprintln] writes only when the confirmation is not suppressed. *)
Definition allowed_after_fetch (c : command) (ev : Event) : Prop :=
  match ev with
  | EvGet _ => False
  | EvPost u _ => u = url c \/ u = fileIndexBaseURL c
  | EvFprintln _ | EvPrompt => noPrompt c = false
  | EvReadFile _ | EvFprint _ | EvNewUpdateRequest _ => True
  end.

(** The event of reading the file at [path]. *)
Definition read_event (w : World) (path : string) : Event :=
  EvReadFile (filepath_Clean w path).

(** The events of the confirmation, when it takes place. *)
Definition confirm_events (w : World) (c : command) (f : files) : Trace :=
  if noPrompt c then []
  else [EvFprintln (confirmPrompt w (url c) f); EvPrompt].

(** The event of reading the signing key, when it is in a file. *)
Definition key_events (w : World) (c : command) : Trace :=
  if String.eqb (fileIndexSigningKeyFile c) EmptyString then []
  else [read_event w (fileIndexSigningKeyFile c)].

(** The deployment in which the index server answers every GET with the
    status [status]. *)
Definition world_get_status (status : Z) : World :=
  let w := world_ok in
  {| url_Parse := url_Parse w;
     mime_TypeByExtension := mime_TypeByExtension w;
     filepath_Clean := filepath_Clean w;
     json_Marshal_uploadFile := json_Marshal_uploadFile w;
     json_Marshal_patch := json_Marshal_patch w;
     json_Unmarshal_string := json_Unmarshal_string w;
     json_Unmarshal_FileIndexDoc := json_Unmarshal_FileIndexDoc w;
     fmt_files := fmt_files w;
     files_String := files_String w;
     unicode_lower := unicode_lower w;
     client_Get := fun _ _ =>
       inr {| StatusCode := status; ErrorMsg := "try later"; Payload := [] |};
     client_Post := client_Post w;
     ioutil_ReadFile := ioutil_ReadFile w;
     Prompt := Prompt w;
     Fprintln := Fprintln w;
     Fprint := Fprint w |}.

(** How many times the byte [a] occurs in [s]. *)
Fixpoint count_byte (a : ascii) (s : string) : nat :=
  match s with
  | EmptyString => 0
  | String b s' => (if Ascii.eqb b a then 1 else 0) + count_byte a s'
  end.

(** A command whose index document URL holds no [":"]. *)
Definition command_without_suffix : command :=
  {| file := "a.json";
     url := "http://h/content";
     basePath := "/content";
     fileIndexURL := "h/file/idx";
     fileIndexBaseURL := "h/file";
     fileIndexUpdateOTP := "pwd1";
     fileIndexNextUpdateOTP := "pwd2";
     fileIndexSigningKeyFile := EmptyString;
     fileIndexSigningKeyString := "KEY";
     noPrompt := true |}.

(** The bytes that the signing variant takes the key from: the content
    of the key file when one is given, the bytes of the key flag
    otherwise. *)
Definition key_source (w : World) (c : command) (tr : Trace) (keyBytes : bytes) : Prop :=
  if String.eqb (fileIndexSigningKeyFile c) EmptyString
  then keyBytes = bytes_of_string (fileIndexSigningKeyString c)
  else ioutil_ReadFile w tr (filepath_Clean w (fileIndexSigningKeyFile c)) = inr keyBytes.

(** The libraries of the signing variant, with a PEM decoder that finds
    no block in any key. *)
Definition sample_sig_lib_no_pem : Sig.Lib :=
  let l := sample_sig_lib newPatch_accepts in
  {| Sig.patch_Patch := Sig.patch_Patch l;
     Sig.ecdsa_PrivateKey := Sig.ecdsa_PrivateKey l;
     Sig.helper_Signer := Sig.helper_Signer l;
     Sig.patch_NewJSONPatch := Sig.patch_NewJSONPatch l;
     Sig.pem_Decode := fun _ => None;
     Sig.x509_ParseECPrivateKey := Sig.x509_ParseECPrivateKey l;
     Sig.ecsigner_New := Sig.ecsigner_New l;
     Sig.model_UpdateKeyID := Sig.model_UpdateKeyID l;
     Sig.helper_NewUpdateRequest := Sig.helper_NewUpdateRequest l |}.

(** The terminal refuses every line. *)
Definition println_fails (tr : Trace) (text : string) : option ext_error :=
  Some "terminal closed".

Definition world_terminal_closed : World :=
  sample_world (sample_doc "/content" ∅) (sample_post None) "y" println_fails.

(** Sample commands after validation: one file, no confirmation; the key
    of the signing variant is in a file. *)
Definition otp_command : command :=
  validated (sample_command "a.json" true EmptyString EmptyString).

Definition sig_command : command :=
  validated (sample_command "a.json" true "signing.key" EmptyString).

(** * Properties *)

(** Unfolds the operations of [M], so that a computation reduces to a
    case analysis on the answers of the world. *)
Ltac unfold_M := unfold bind, lift, call, call_err, fail, ret.

(** ** Strings *)

Lemma prefix_byte (a b : ascii) (s : string) :
  String.prefix (String a EmptyString) (String b s) = Ascii.eqb b a.
Proof.
  simpl. destruct (ascii_dec a b) as [->|Hne].
  - rewrite Ascii.eqb_refl. by destruct s.
  - symmetry. apply Ascii.eqb_neq. congruence.
Qed.

Lemma LastIndex_at_absent (a : ascii) (s : string) (i : Z) :
  has_byte a s = false -> LastIndex_at s (String a EmptyString) i = -1.
Proof.
  revert i. induction s as [|b s IH]; intros i Hs; [done|].
  simpl in Hs. apply orb_false_iff in Hs as [Hb Hs].
  cbn [LastIndex_at]. rewrite (IH _ Hs), prefix_byte, Hb. done.
Qed.

Lemma append_empty (s : string) : (EmptyString +:+ s)%string = s.
Proof. reflexivity. Qed.

Lemma append_String (a : ascii) (s t : string) :
  (String a s +:+ t)%string = String a (s +:+ t).
Proof. reflexivity. Qed.

Lemma LastIndex_at_last (a : ascii) (pre suf : string) (i : Z) :
  0 <= i -> has_byte a suf = false ->
  LastIndex_at (pre +:+ String a suf) (String a EmptyString) i = i + len pre.
Proof.
  revert i. induction pre as [|b pre IH]; intros i Hi Hsuf.
  - rewrite append_empty. cbn [LastIndex_at].
    rewrite (LastIndex_at_absent _ _ _ Hsuf), prefix_byte, Ascii.eqb_refl.
    unfold len. simpl. lia.
  - rewrite append_String. cbn [LastIndex_at].
    rewrite IH by (done || lia).
    unfold len. cbn [String.length].
    destruct (0 <=? i + 1 + Z.of_nat (String.length pre)) eqn:E; lia.
Qed.

Lemma drop_string_app (a : ascii) (pre suf : string) :
  drop_string (S (String.length pre)) (pre +:+ String a suf) = suf.
Proof. induction pre as [|b pre IH]; [done|]. rewrite append_String. exact IH. Qed.

Lemma take_string_app (pre suf : string) :
  take_string (String.length pre) (pre +:+ suf) = pre.
Proof.
  induction pre as [|b pre IH]; [by destruct suf|].
  rewrite append_String. simpl. by rewrite IH.
Qed.

(** A string in which [a] occurs splits at the last [a]. *)
Lemma has_byte_split (a : ascii) (s : string) :
  has_byte a s = true ->
  exists pre suf, s = pre +:+ String a suf /\ has_byte a suf = false.
Proof.
  induction s as [|b s IH]; [done|].
  simpl. intros H. destruct (has_byte a s) eqn:Hs.
  - destruct (IH eq_refl) as (pre & suf & -> & Hsuf).
    by exists (String b pre), suf.
  - rewrite orb_false_r in H. apply Ascii.eqb_eq in H as ->.
    by exists EmptyString, s.
Qed.

Lemma has_byte_app (a : ascii) (s t : string) :
  has_byte a (s +:+ t) = has_byte a s || has_byte a t.
Proof.
  induction s as [|b s IH]; [done|].
  rewrite append_String. simpl. by rewrite IH, orb_assoc.
Qed.

Lemma strings_LastIndex_last (a : ascii) (pre suf : string) :
  has_byte a suf = false ->
  strings_LastIndex (pre +:+ String a suf) (String a EmptyString) = len pre.
Proof.
  intros H. unfold strings_LastIndex. rewrite LastIndex_at_last by done. lia.
Qed.

(** ** C2: the unique suffix *)

(** C2. For every index document URL in which [":"] occurs,
    [getUniqueSuffix] returns the part of it after the last [":"]: the
    URL is [pre ++ ":" ++ suf] with no [":"] in [suf], and the result is
    [suf].  For every string in which no [":"] occurs it fails with the
    error "unique suffix not provided in URL". *)
Theorem getUniqueSuffix_spec (id : string) :
  (has_byte ":" id = true ->
   exists pre suf,
     id = (pre +:+ ":" +:+ suf)%string /\ has_byte ":" suf = false /\
     getUniqueSuffix id = Ok suf)
  /\ (has_byte ":" id = false ->
      getUniqueSuffix id = Err (errUniqueSuffixNotProvided id)).
Proof.
  split; intros H.
  - destruct (has_byte_split _ _ H) as (pre & suf & -> & Hsuf).
    exists pre, suf. repeat split; [done|].
    unfold getUniqueSuffix.
    rewrite (strings_LastIndex_last ":" pre suf Hsuf).
    unfold len, slice_from.
    destruct (Z.eqb_spec (Z.of_nat (String.length pre)) (-1)) as [E|_]; [lia|].
    replace (Z.to_nat (Z.of_nat (String.length pre) + 1))
      with (S (String.length pre)) by lia.
    by rewrite drop_string_app.
  - unfold getUniqueSuffix, strings_LastIndex.
    by rewrite (LastIndex_at_absent _ _ _ H).
Qed.

Lemma getUniqueSuffix_spec_witness :
  (exists pre suf,
     "http://h/file/file:idx:ABC123" = (pre +:+ ":" +:+ suf)%string /\
     has_byte ":" suf = false /\
     getUniqueSuffix "http://h/file/file:idx:ABC123" = Ok suf)
  /\ getUniqueSuffix "h/file/idx" = Err (errUniqueSuffixNotProvided "h/file/idx").
Proof.
  split.
  - apply (proj1 (getUniqueSuffix_spec "http://h/file/file:idx:ABC123")). reflexivity.
  - apply (proj2 (getUniqueSuffix_spec "h/file/idx")). reflexivity.
Defined.

(** ** C1: the entries of the patch *)

Lemma patch_loop_app (fileIdx : model_FileIndex) (fs : files) (patch : list jsonPatch) :
  patch_loop fileIdx fs patch = patch ++ map (patchEntry fileIdx) fs.
Proof.
  revert patch. induction fs as [|f fs IH]; intros patch; simpl.
  - by rewrite app_nil_r.
  - by rewrite IH, <- app_assoc.
Qed.

Lemma patchEntry_fields (fileIdx : model_FileIndex) (f : fileInfo) :
  patchEntry fileIdx f =
    {| Op := if decide (Name f ∈ dom (Mappings fileIdx)) then "replace" else "add";
       Path := ("/fileIndex/mappings/" +:+ Name f)%string;
       Value := ID f |}.
Proof.
  unfold patchEntry. destruct (Mappings fileIdx !! Name f) as [v|] eqn:E.
  - rewrite decide_True; [reflexivity|]. apply elem_of_dom. by exists v.
  - rewrite decide_False; [reflexivity|]. by apply not_elem_of_dom.
Qed.

(** C1. For every file index document and every list of uploaded files,
    the list of entries that [getUpdatePatch] builds has one entry per
    file, in the order of the files: the entry at index [i] has the path
    ["/fileIndex/mappings/<name>"] and the ID of the file at index [i], and
    its operation is ["replace"] when the name is a key of the mappings of
    the document and ["add"] otherwise.  Both variants marshal exactly this
    list: the signing variant returns the marshalled text, the password
    variant what [jsonpatch.DecodePatch] makes of it. *)
Theorem getUpdatePatch_entries (w : World) (l : OTP.Lib)
    (fileIdx : model_FileIndex) (fs : files) :
  let patch := patch_loop fileIdx fs [] in
  length patch = length fs
  /\ (forall i : nat,
        patch !! i =
          (fun f : fileInfo =>
             {| Op := if decide (Name f ∈ dom (Mappings fileIdx))
                      then "replace" else "add";
                Path := ("/fileIndex/mappings/" +:+ Name f)%string;
                Value := ID f |}) <$> (fs !! i))
  /\ Sig.getUpdatePatch w fileIdx fs =
       match json_Marshal_patch w patch with
       | inl err => Err (errExternal err)
       | inr patchBytes => Ok (string_of_bytes patchBytes)
       end
  /\ OTP.getUpdatePatch w l fileIdx fs =
       match json_Marshal_patch w patch with
       | inl err => Err (errExternal err)
       | inr patchBytes => of_ext (OTP.jsonpatch_DecodePatch l patchBytes)
       end.
Proof.
  intros patch. subst patch. rewrite patch_loop_app, app_nil_l.
  repeat split.
  - by rewrite length_map.
  - intros i. rewrite list_lookup_fmap.
    destruct (fs !! i) as [f|]; simpl; [|reflexivity].
    rewrite patchEntry_fields. reflexivity.
  - unfold Sig.getUpdatePatch. rewrite patch_loop_app, app_nil_l.
    by destruct (json_Marshal_patch w _).
  - unfold OTP.getUpdatePatch. rewrite patch_loop_app, app_nil_l.
    destruct (json_Marshal_patch w _) as [e|b]; [done|].
    simpl. by destruct (OTP.jsonpatch_DecodePatch l b).
Qed.

(** The scenarios of the specification: one file [a.json] with the ID
    [X], against an index without and with an entry for it. *)
Example patch_scenario_add :
  patch_loop {| BasePath := "/content"; Mappings := ∅ |}
    [ {| Name := "a.json"; Content := []; ContentType := "application/json"; ID := "X" |} ] []
  = [ {| Op := "add"; Path := "/fileIndex/mappings/a.json"; Value := "X" |} ].
Proof. reflexivity. Qed.

Example patch_scenario_replace :
  patch_loop {| BasePath := "/content"; Mappings := {[ "a.json" := "W" ]} |}
    [ {| Name := "a.json"; Content := []; ContentType := "application/json"; ID := "X" |} ] []
  = [ {| Op := "replace"; Path := "/fileIndex/mappings/a.json"; Value := "X" |} ].
Proof. vm_compute. reflexivity. Qed.

(** ** The index fetch *)

Lemma getFileIndex_trace (w : World) (c : command) (tr : Trace) :
  fst (getFileIndex w c tr) = tr ++ [EvGet (fileIndexURL c)].
Proof.
  unfold getFileIndex; unfold_M.
  destruct (client_Get w tr (fileIndexURL c)) as [e|resp]; simpl; [done|].
  destruct (StatusCode resp =? http_StatusOK); simpl.
  - destruct (json_Unmarshal_FileIndexDoc w (Payload resp)) as [e|doc]; simpl; [done|].
    by destruct (String.eqb _ _).
  - by destruct (StatusCode resp =? http_StatusNotFound).
Qed.

Lemma getFileIndex_mismatch (w : World) (c : command) (tr : Trace)
    (resp : HTTPResponse) (doc : model_FileIndexDoc) :
  client_Get w tr (fileIndexURL c) = inr resp ->
  StatusCode resp = http_StatusOK ->
  json_Unmarshal_FileIndexDoc w (Payload resp) = inr doc ->
  BasePath (FileIndex doc) <> basePath c ->
  getFileIndex w c tr =
    (tr ++ [EvGet (fileIndexURL c)],
     Err (errBasePathMismatch (BasePath (FileIndex doc)) (basePath c))).
Proof.
  intros Hget Hcode Hdoc Hne.
  unfold getFileIndex; unfold_M.
  rewrite Hget. simpl. rewrite Hcode, Z.eqb_refl. simpl.
  rewrite Hdoc. simpl.
  apply String.eqb_neq in Hne. by rewrite Hne.
Qed.

(** An index that [getFileIndex] returns has the base path of the
    command. *)
Lemma getFileIndex_ok (w : World) (c : command) (tr tr' : Trace)
    (fileIdx : model_FileIndex) :
  getFileIndex w c tr = (tr', Ok fileIdx) ->
  tr' = tr ++ [EvGet (fileIndexURL c)] /\ BasePath fileIdx = basePath c.
Proof.
  unfold getFileIndex; unfold_M.
  destruct (client_Get w tr (fileIndexURL c)) as [e|resp]; simpl; [done|].
  destruct (StatusCode resp =? http_StatusOK); simpl.
  - destruct (json_Unmarshal_FileIndexDoc w (Payload resp)) as [e|doc]; simpl; [done|].
    destruct (String.eqb_spec (BasePath (FileIndex doc)) (basePath c)); simpl; [|done].
    intros [= <- <-]. done.
  - by destruct (StatusCode resp =? http_StatusNotFound).
Qed.

Lemma run_getFileIndex_err (w : World)
    (upd : command -> model_FileIndex -> files -> M unit)
    (c : command) (tr tr' : Trace) (e : error) :
  getFileIndex w c tr = (tr', Err e) -> run w upd c tr = (tr', Err e).
Proof. intros H. unfold run, bind. by rewrite H. Qed.

(** What [validateAndProcessArgs] keeps and what it derives. *)
Lemma OTP_validate_ok (w : World) (c c' : command) :
  OTP.validateAndProcessArgs w c = Ok c' ->
  exists u, url_Parse w (url c) = inr u /\ basePath c' = url_Path u
    /\ url c' = url c /\ file c' = file c /\ fileIndexURL c' = fileIndexURL c
    /\ noPrompt c' = noPrompt c.
Proof.
  unfold OTP.validateAndProcessArgs.
  repeat (case_match; try done). intros [= <-]. by eexists.
Qed.

Lemma Sig_validate_ok (w : World) (c c' : command) :
  Sig.validateAndProcessArgs w c = Ok c' ->
  exists u, url_Parse w (url c) = inr u /\ basePath c' = url_Path u
    /\ url c' = url c /\ file c' = file c /\ fileIndexURL c' = fileIndexURL c
    /\ noPrompt c' = noPrompt c
    /\ Sig.validateSigningKey c = None.
Proof.
  unfold Sig.validateAndProcessArgs.
  repeat (case_match; try done). intros [= <-].
  eexists; repeat split; try done.
Qed.

(** ** C5: the base path of the index document *)

(** C5. For every index document that the fetch receives and decodes,
    whose [basePath] differs from the path component of the upload URL,
    the run of either variant fails with the base-path mismatch error, and
    the GET of the index document is the only call it made: no file is
    posted to the upload endpoint. *)
Theorem basePath_mismatch_fails (w : World) (lo : OTP.Lib) (ls : Sig.Lib)
    (c0 : command) (u : URL) (resp : HTTPResponse) (doc : model_FileIndexDoc)
    (tr : Trace) :
  url_Parse w (url c0) = inr u ->
  client_Get w tr (fileIndexURL c0) = inr resp ->
  StatusCode resp = http_StatusOK ->
  json_Unmarshal_FileIndexDoc w (Payload resp) = inr doc ->
  BasePath (FileIndex doc) <> url_Path u ->
  let failed : Trace * result unit :=
    (tr ++ [EvGet (fileIndexURL c0)],
     Err (errBasePathMismatch (BasePath (FileIndex doc)) (url_Path u))) in
  (forall c, OTP.validateAndProcessArgs w c0 = Ok c ->
             OTP.run w lo c tr = failed /\ OTP.execute w lo c0 tr = failed)
  /\ (forall c, Sig.validateAndProcessArgs w c0 = Ok c ->
                Sig.run w ls c tr = failed /\ Sig.execute w ls c0 tr = failed).
Proof.
  intros Hu Hget Hcode Hdoc Hne failed.
  split; intros c Hc.
  - destruct (OTP_validate_ok _ _ _ Hc) as (u' & Hu' & Hbp & _ & _ & Hidx & _).
    assert (u' = u) as -> by congruence.
    assert (OTP.run w lo c tr = failed) as Hrun.
    { apply run_getFileIndex_err. rewrite <- Hidx, <- Hbp.
      apply getFileIndex_mismatch with resp; congruence. }
    split; [done|].
    unfold OTP.execute, execute, bind, lift. by rewrite Hc.
  - destruct (Sig_validate_ok _ _ _ Hc) as (u' & Hu' & Hbp & _ & _ & Hidx & _).
    assert (u' = u) as -> by congruence.
    assert (Sig.run w ls c tr = failed) as Hrun.
    { apply run_getFileIndex_err. rewrite <- Hidx, <- Hbp.
      apply getFileIndex_mismatch with resp; congruence. }
    split; [done|].
    unfold Sig.execute, execute, bind, lift. by rewrite Hc.
Qed.

Lemma basePath_mismatch_fails_witness :
  OTP.execute world_other_path (sample_otp_lib decode_accepts)
    (sample_command "a.json" true EmptyString EmptyString) []
  = ([EvGet "http://h/file/file:idx:ABC123"],
     Err (errBasePathMismatch "/other" "/content"))
  /\ Sig.execute world_other_path (sample_sig_lib newPatch_accepts)
       (sample_command "a.json" true EmptyString "KEY") []
     = ([EvGet "http://h/file/file:idx:ABC123"],
        Err (errBasePathMismatch "/other" "/content")).
Proof.
  split.
  - refine (proj2 (proj1 (basePath_mismatch_fails world_other_path (sample_otp_lib decode_accepts)
             (sample_sig_lib newPatch_accepts) (sample_command "a.json" true EmptyString EmptyString)
             {| url_Path := "/content" |}
             {| StatusCode := 200; ErrorMsg := EmptyString; Payload := [] |}
             (sample_doc "/other" ∅) [] _ _ _ _ _) _ _));
      [reflexivity | reflexivity | reflexivity | reflexivity | discriminate | reflexivity].
  - refine (proj2 (proj2 (basePath_mismatch_fails world_other_path (sample_otp_lib decode_accepts)
             (sample_sig_lib newPatch_accepts) (sample_command "a.json" true EmptyString "KEY")
             {| url_Path := "/content" |}
             {| StatusCode := 200; ErrorMsg := EmptyString; Payload := [] |}
             (sample_doc "/other" ∅) [] _ _ _ _ _) _ _));
      [reflexivity | reflexivity | reflexivity | reflexivity | discriminate | reflexivity].
Defined.

(** ** C9: no normalisation of the base path *)

Lemma length_append (s t : string) :
  String.length (s +:+ t) = (String.length s + String.length t)%nat.
Proof.
  induction s as [|a s IH]; [done|].
  rewrite append_String. simpl. by rewrite IH.
Qed.

Lemma append_byte_neq (s : string) (a : ascii) :
  (s +:+ String a EmptyString)%string <> s.
Proof.
  intros H. apply (f_equal String.length) in H.
  rewrite length_append in H. simpl in H. lia.
Qed.

(** C9. [validateAndProcessArgs] takes the base path of the command from
    the path of the parsed upload URL as it is, and [getFileIndex] compares
    it with the [basePath] of the document by equality of strings: for
    every pair of the two that differ only in a trailing slash, on either
    side, the fetch fails with the base-path mismatch error. *)
Theorem basePath_trailing_slash (w : World) (c0 : command) (u : URL)
    (resp : HTTPResponse) (doc : model_FileIndexDoc) (tr : Trace) :
  url_Parse w (url c0) = inr u ->
  client_Get w tr (fileIndexURL c0) = inr resp ->
  StatusCode resp = http_StatusOK ->
  json_Unmarshal_FileIndexDoc w (Payload resp) = inr doc ->
  BasePath (FileIndex doc) = (url_Path u +:+ "/")%string
    \/ url_Path u = (BasePath (FileIndex doc) +:+ "/")%string ->
  forall c,
    OTP.validateAndProcessArgs w c0 = Ok c \/ Sig.validateAndProcessArgs w c0 = Ok c ->
    basePath c = url_Path u
    /\ getFileIndex w c tr =
         (tr ++ [EvGet (fileIndexURL c0)],
          Err (errBasePathMismatch (BasePath (FileIndex doc)) (url_Path u))).
Proof.
  intros Hu Hget Hcode Hdoc Hslash c Hc.
  assert (exists u', url_Parse w (url c0) = inr u' /\ basePath c = url_Path u'
                     /\ fileIndexURL c = fileIndexURL c0) as (u' & Hu' & Hbp & Hidx).
  { destruct Hc as [Hc|Hc].
    - destruct (OTP_validate_ok _ _ _ Hc) as (u' & ? & ? & _ & _ & ? & _). by exists u'.
    - destruct (Sig_validate_ok _ _ _ Hc) as (u' & ? & ? & _ & _ & ? & _). by exists u'. }
  assert (u' = u) as -> by congruence.
  split; [done|].
  rewrite <- Hidx, <- Hbp.
  apply getFileIndex_mismatch with resp; try congruence.
  rewrite Hbp. destruct Hslash as [H|H]; rewrite H.
  - apply append_byte_neq.
  - intros E. symmetry in E. revert E. apply append_byte_neq.
Qed.

Lemma basePath_trailing_slash_witness :
  OTP.validateAndProcessArgs world_slash (sample_command "a.json" true EmptyString EmptyString)
    = Ok (validated (sample_command "a.json" true EmptyString EmptyString))
  /\ basePath (validated (sample_command "a.json" true EmptyString EmptyString)) = "/content"
  /\ getFileIndex world_slash (validated (sample_command "a.json" true EmptyString EmptyString)) [] =
       ([EvGet "http://h/file/file:idx:ABC123"],
        Err (errBasePathMismatch "/content/" "/content")).
Proof.
  split; [reflexivity|].
  refine (basePath_trailing_slash world_slash (sample_command "a.json" true EmptyString EmptyString)
            {| url_Path := "/content" |}
            {| StatusCode := 200; ErrorMsg := EmptyString; Payload := [] |}
            (sample_doc "/content/" ∅) [] _ _ _ _ _
            (validated (sample_command "a.json" true EmptyString EmptyString)) (or_introl _));
    [reflexivity | reflexivity | reflexivity | reflexivity | left; reflexivity
    | reflexivity].
Defined.

(** ** C8: the signing key flags *)

Lemma Sig_execute_invalid (w : World) (l : Sig.Lib) (c : command) (tr : Trace)
    (e : error) :
  Sig.validateAndProcessArgs w c = Err e -> Sig.execute w l c tr = (tr, Err e).
Proof. intros H. unfold Sig.execute, execute, bind, lift. by rewrite H. Qed.

Lemma Sig_validate_signingKey_err (w : World) (c : command) (e : error) :
  Sig.validateSigningKey c = Some e ->
  exists e', Sig.validateAndProcessArgs w c = Err e'
    /\ (forall c', OTP.validateAndProcessArgs w c = Ok c' -> e' = e).
Proof.
  intros He. unfold Sig.validateAndProcessArgs, OTP.validateAndProcessArgs.
  change (Sig.validateSigningKey (set_basePath ?p c)) with (Sig.validateSigningKey c).
  repeat (case_match; try (eexists; split; [reflexivity|]; done)).
  all: try congruence.
  all: eexists; split; [reflexivity|]; congruence.
Qed.

(** C8. In the signing variant, when neither [--signingkey] nor
    [--signingkeyfile] is given, and when both are given, the validation of
    the arguments fails and the command ends with that error without a
    single call to a collaborator (the trace is left as it was): no network
    call is made.  The error is the one of [validateSigningKey] whenever the
    checks shared with the password variant pass.  Conversely, when the
    validation passes, exactly one of the two flags is given. *)
Theorem signingKey_validation (w : World) (l : Sig.Lib) (c : command) (tr : Trace) :
  (fileIndexSigningKeyFile c = EmptyString /\ fileIndexSigningKeyString c = EmptyString ->
   exists e, Sig.validateAndProcessArgs w c = Err e
     /\ Sig.execute w l c tr = (tr, Err e)
     /\ (forall c', OTP.validateAndProcessArgs w c = Ok c' ->
                    e = errSigningKeyOrFileRequired))
  /\ (fileIndexSigningKeyFile c <> EmptyString /\ fileIndexSigningKeyString c <> EmptyString ->
      exists e, Sig.validateAndProcessArgs w c = Err e
        /\ Sig.execute w l c tr = (tr, Err e)
        /\ (forall c', OTP.validateAndProcessArgs w c = Ok c' ->
                       e = errOnlyOneOfSigningKeyOrFileRequired))
  /\ (forall c', Sig.validateAndProcessArgs w c = Ok c' ->
        (fileIndexSigningKeyFile c <> EmptyString /\ fileIndexSigningKeyString c = EmptyString)
        \/ (fileIndexSigningKeyFile c = EmptyString /\ fileIndexSigningKeyString c <> EmptyString)).
Proof.
  repeat split.
  - intros [Hf Hs].
    destruct (Sig_validate_signingKey_err w c errSigningKeyOrFileRequired)
      as (e & He & Hspec).
    { unfold Sig.validateSigningKey. by rewrite Hf, Hs. }
    exists e. auto using Sig_execute_invalid.
  - intros [Hf Hs].
    destruct (Sig_validate_signingKey_err w c errOnlyOneOfSigningKeyOrFileRequired)
      as (e & He & Hspec).
    { unfold Sig.validateSigningKey.
      apply String.eqb_neq in Hf, Hs. by rewrite Hf, Hs. }
    exists e. auto using Sig_execute_invalid.
  - intros c' Hc'.
    destruct (Sig_validate_ok _ _ _ Hc') as (_ & _ & _ & _ & _ & _ & _ & Hkey).
    unfold Sig.validateSigningKey in Hkey.
    destruct (String.eqb_spec (fileIndexSigningKeyFile c) EmptyString);
      destruct (String.eqb_spec (fileIndexSigningKeyString c) EmptyString);
      simpl in Hkey; try done; auto.
Qed.

Lemma signingKey_validation_witness :
  Sig.execute world_ok (sample_sig_lib newPatch_accepts)
    (sample_command "a.json" true EmptyString EmptyString) []
  = ([], Err errSigningKeyOrFileRequired)
  /\ Sig.execute world_ok (sample_sig_lib newPatch_accepts)
       (sample_command "a.json" true "signing.key" "KEY") []
     = ([], Err errOnlyOneOfSigningKeyOrFileRequired)
  /\ (fileIndexSigningKeyFile (sample_command "a.json" true "signing.key" EmptyString) <> EmptyString
      /\ fileIndexSigningKeyString (sample_command "a.json" true "signing.key" EmptyString) = EmptyString
      \/ fileIndexSigningKeyFile (sample_command "a.json" true "signing.key" EmptyString) = EmptyString
         /\ fileIndexSigningKeyString (sample_command "a.json" true "signing.key" EmptyString) <> EmptyString).
Proof.
  split; [|split].
  - destruct (proj1 (signingKey_validation world_ok (sample_sig_lib newPatch_accepts)
                       (sample_command "a.json" true EmptyString EmptyString) []) (conj eq_refl eq_refl))
      as (e & _ & Hexec & He).
    rewrite Hexec. f_equal. f_equal.
    apply (He (validated (sample_command "a.json" true EmptyString EmptyString))). reflexivity.
  - destruct (proj1 (proj2 (signingKey_validation world_ok
                       (sample_sig_lib newPatch_accepts)
                       (sample_command "a.json" true "signing.key" "KEY") [])))
      as (e & _ & Hexec & He); [split; discriminate|].
    rewrite Hexec. f_equal. f_equal.
    apply (He (validated (sample_command "a.json" true "signing.key" "KEY"))).
    reflexivity.
  - apply (proj2 (proj2 (signingKey_validation world_ok
                    (sample_sig_lib newPatch_accepts)
                    (sample_command "a.json" true "signing.key" EmptyString) []))
             (validated (sample_command "a.json" true "signing.key" EmptyString))).
    reflexivity.
Defined.

(** ** C10: the answers that confirm *)

Lemma lower_byte_y (a : ascii) :
  lower_byte a = "y"%char <-> a = "y"%char \/ a = "Y"%char.
Proof.
  destruct a as [[] [] [] [] [] [] [] []]; vm_compute;
    (split; [intros [=]; auto | intros [[=]|[=]]; auto]).
Qed.

Lemma lower_ascii_y (s : string) :
  lower_ascii s = "y" <-> s = "y" \/ s = "Y".
Proof.
  destruct s as [|a [|b s]]; simpl.
  - split; [done|]. by intros [|].
  - split.
    + intros [= H]. apply lower_byte_y in H as [->| ->]; auto.
    + intros [[= ->]|[= ->]]; reflexivity.
  - split; [done|]. by intros [|].
Qed.

Lemma strings_ToLower_y (unicode_lower : string -> string) (s : string) :
  (forall s, isASCII s = false -> unicode_lower s <> "y") ->
  strings_ToLower unicode_lower s = "y" <-> s = "y" \/ s = "Y".
Proof.
  intros Hu. unfold strings_ToLower. destruct (isASCII s) eqn:E.
  - apply lower_ascii_y.
  - split.
    + intros H. by apply Hu in H.
    + intros [->| ->]; discriminate.
Qed.

Lemma confirmUpload_eq (w : World) (url : string) (fs : files) (tr : Trace) :
  Fprintln w tr (confirmPrompt w url fs) = None ->
  confirmUpload w url fs tr =
    (tr ++ [EvFprintln (confirmPrompt w url fs); EvPrompt],
     Ok (String.eqb
           (strings_ToLower (unicode_lower w)
              (Prompt w (tr ++ [EvFprintln (confirmPrompt w url fs)]))) "y")).
Proof.
  intros H. unfold confirmUpload, bind, call_err. rewrite H.
  by rewrite <- app_assoc.
Qed.

(** C10. Once the prompt is printed, [confirmUpload] reads one answer and
    reports the upload as confirmed exactly when the answer is the one
    character string ["y"] or ["Y"]; every other answer, ["yes"] among
    them, is a refusal.  The case tables of Go map no character outside
    ASCII to [y]; that is the assumption on the non-ASCII path of
    [strings.ToLower]. *)
Theorem confirmUpload_affirmative (w : World) (url : string) (fs : files)
    (tr : Trace) :
  (forall s, isASCII s = false -> unicode_lower w s <> "y") ->
  Fprintln w tr (confirmPrompt w url fs) = None ->
  exists confirmed : bool,
    confirmUpload w url fs tr =
      (tr ++ [EvFprintln (confirmPrompt w url fs); EvPrompt], Ok confirmed)
    /\ (confirmed = true <->
        Prompt w (tr ++ [EvFprintln (confirmPrompt w url fs)]) = "y"
        \/ Prompt w (tr ++ [EvFprintln (confirmPrompt w url fs)]) = "Y")
    /\ (Prompt w (tr ++ [EvFprintln (confirmPrompt w url fs)]) = "yes" ->
        confirmed = false).
Proof.
  intros Hu Hprint. eexists. split; [by apply confirmUpload_eq|].
  split.
  - rewrite String.eqb_eq. by apply strings_ToLower_y.
  - intros ->. reflexivity.
Qed.

Lemma unicode_lower_id_not_y (s : string) :
  isASCII s = false -> (fun s : string => s) s <> "y".
Proof. intros H ->. discriminate. Qed.

Lemma confirmUpload_affirmative_witness :
  (exists confirmed : bool,
     confirmUpload (world_answer "Y") "http://h/content" [] [] =
       ([EvFprintln (confirmPrompt (world_answer "Y") "http://h/content" []); EvPrompt],
        Ok confirmed)
     /\ (confirmed = true <-> "Y" = "y" \/ "Y" = "Y")
     /\ ("Y" = "yes" -> confirmed = false))
  /\ (exists confirmed : bool,
        confirmUpload (world_answer "yes") "http://h/content" [] [] =
          ([EvFprintln (confirmPrompt (world_answer "yes") "http://h/content" []); EvPrompt],
           Ok confirmed)
        /\ (confirmed = true <-> "yes" = "y" \/ "yes" = "Y")
        /\ ("yes" = "yes" -> confirmed = false)).
Proof.
  split.
  - exact (confirmUpload_affirmative (world_answer "Y") "http://h/content" [] []
             unicode_lower_id_not_y eq_refl).
  - exact (confirmUpload_affirmative (world_answer "yes") "http://h/content" [] []
             unicode_lower_id_not_y eq_refl).
Defined.

(** ** C7: the upload that is not confirmed *)

(** [run] from the confirmation on. *)
Lemma run_confirm (w : World)
    (upd : command -> model_FileIndex -> files -> M unit)
    (c : command) (tr tr1 tr2 : Trace) (fileIdx : model_FileIndex) (f : files) :
  getFileIndex w c tr = (tr1, Ok fileIdx) ->
  getFiles w c tr1 = (tr2, Ok f) ->
  noPrompt c = false ->
  Fprintln w tr2 (confirmPrompt w (url c) f) = None ->
  run w upd c tr =
    let tr3 := tr2 ++ [EvFprintln (confirmPrompt w (url c) f); EvPrompt] in
    if String.eqb
         (strings_ToLower (unicode_lower w)
            (Prompt w (tr2 ++ [EvFprintln (confirmPrompt w (url c) f)]))) "y"
    then run_upload w upd c fileIdx f tr3
    else call_err (EvFprintln msgAborted) (fun tr => Fprintln w tr msgAborted) tr3.
Proof.
  intros Hidx Hf Hnp Hprint. unfold run, bind.
  rewrite Hidx, Hf, Hnp. simpl.
  rewrite (confirmUpload_eq _ _ _ _ Hprint).
  by destruct (String.eqb _ _).
Qed.

(** The loop of [getFiles] adds nothing to the trace but the reading of
    files. *)
Lemma getFiles_loop_reads (w : World) (paths : list string) (f : files) (tr : Trace) :
  exists reads, fst (getFiles_loop w paths f tr) = tr ++ reads
    /\ Forall (fun ev => exists path, ev = EvReadFile path) reads.
Proof.
  revert f tr. induction paths as [|p paths IH]; intros f tr; simpl.
  - exists []. by rewrite app_nil_r.
  - unfold getFileInfo. unfold_M.
    destruct (contentTypeFromFileName w (fileNameOf p)) as [ct|e]; simpl;
      [|exists []; by rewrite app_nil_r].
    destruct (ioutil_ReadFile w tr (filepath_Clean w p)) as [x|content]; simpl.
    + exists [EvReadFile (filepath_Clean w p)]. split; [done|].
      constructor; [eauto|constructor].
    + destruct (IH (f ++ [{| Name := fileNameOf p; Content := content;
                             ContentType := ct; ID := EmptyString |}])
                   (tr ++ [EvReadFile (filepath_Clean w p)])) as (reads & Hreads & Hall).
      exists (EvReadFile (filepath_Clean w p) :: reads).
      rewrite Hreads, <- app_assoc. split; [done|]. constructor; [eauto|done].
Qed.

(** What [run] returns when the upload is not confirmed: what the
    printing of the notice returns. *)
Lemma run_declined (w : World)
    (upd : command -> model_FileIndex -> files -> M unit)
    (c : command) (tr tr1 tr2 : Trace) (fileIdx : model_FileIndex) (f : files) :
  getFileIndex w c tr = (tr1, Ok fileIdx) ->
  getFiles w c tr1 = (tr2, Ok f) ->
  noPrompt c = false ->
  Fprintln w tr2 (confirmPrompt w (url c) f) = None ->
  strings_ToLower (unicode_lower w)
    (Prompt w (tr2 ++ [EvFprintln (confirmPrompt w (url c) f)])) <> "y" ->
  run w upd c tr =
    call_err (EvFprintln msgAborted) (fun tr => Fprintln w tr msgAborted)
      (tr2 ++ [EvFprintln (confirmPrompt w (url c) f); EvPrompt]).
Proof.
  intros Hidx Hf Hnp Hprint Hno.
  rewrite (run_confirm _ _ _ _ _ _ _ _ Hidx Hf Hnp Hprint).
  apply String.eqb_neq in Hno. cbv zeta. by rewrite Hno.
Qed.

(** C7. When the run reaches the confirmation (the index is fetched,
    the files are loaded, the prompt is not suppressed and is printed), the
    answer is not an affirmative one, and the notice of the aborted
    operation is written, the run ends there without error.  Its events
    are the GET of the index document, the reading of the files, the
    prompt, the answer and the notice: no file is uploaded, no update
    request is built and nothing is posted. *)
Theorem run_not_confirmed (w : World)
    (upd : command -> model_FileIndex -> files -> M unit)
    (c : command) (tr tr1 tr2 : Trace) (fileIdx : model_FileIndex) (f : files) :
  getFileIndex w c tr = (tr1, Ok fileIdx) ->
  getFiles w c tr1 = (tr2, Ok f) ->
  noPrompt c = false ->
  Fprintln w tr2 (confirmPrompt w (url c) f) = None ->
  strings_ToLower (unicode_lower w)
    (Prompt w (tr2 ++ [EvFprintln (confirmPrompt w (url c) f)])) <> "y" ->
  Fprintln w (tr2 ++ [EvFprintln (confirmPrompt w (url c) f); EvPrompt]) msgAborted
    = None ->
  exists reads : Trace,
    Forall (fun ev => exists path, ev = EvReadFile path) reads
    /\ run w upd c tr =
         (tr ++ EvGet (fileIndexURL c) :: reads
             ++ [EvFprintln (confirmPrompt w (url c) f); EvPrompt;
                 EvFprintln msgAborted],
          Ok tt).
Proof.
  intros Hidx Hf Hnp Hprint Hno Hnotice.
  rewrite (run_declined _ upd _ _ _ _ _ _ Hidx Hf Hnp Hprint Hno).
  unfold call_err. rewrite Hnotice.
  destruct (getFileIndex_ok _ _ _ _ _ Hidx) as [-> _].
  destruct (getFiles_loop_reads w (Split_byte (file c) ";") []
              (tr ++ [EvGet (fileIndexURL c)])) as (reads & Hreads & Hall).
  unfold getFiles in Hf. rewrite Hf in Hreads. simpl in Hreads. subst tr2.
  exists reads. split; [done|]. by rewrite <- !app_assoc.
Qed.

Lemma run_not_confirmed_witness :
  exists reads : Trace,
    Forall (fun ev => exists path, ev = EvReadFile path) reads
    /\ OTP.run (world_answer "n") (sample_otp_lib decode_accepts)
         (validated (sample_command "a.json" false EmptyString EmptyString)) []
       = ([] ++ EvGet "http://h/file/file:idx:ABC123" :: reads
             ++ [EvFprintln (confirmPrompt (world_answer "n") "http://h/content"
                               [ {| Name := "a.json";
                                    Content := bytes_of_string "content of a.json";
                                    ContentType := "application/json";
                                    ID := EmptyString |} ]);
                 EvPrompt; EvFprintln "Operation aborted"],
          Ok tt).
Proof.
  refine (run_not_confirmed (world_answer "n")
            (OTP.updateIndexFile (world_answer "n") (sample_otp_lib decode_accepts))
            (validated (sample_command "a.json" false EmptyString EmptyString)) []
            [EvGet "http://h/file/file:idx:ABC123"]
            [EvGet "http://h/file/file:idx:ABC123"; EvReadFile "a.json"]
            {| BasePath := "/content"; Mappings := ∅ |}
            [ {| Name := "a.json";
                 Content := bytes_of_string "content of a.json";
                 ContentType := "application/json"; ID := EmptyString |} ]
            _ _ _ _ _ _);
    [reflexivity | reflexivity | reflexivity | reflexivity | discriminate | reflexivity].
Defined.

(** The same run of both variants, with the answer [n]: the events and
    the result. *)
Example declined_run :
  OTP.run (world_answer "n") (sample_otp_lib decode_accepts)
    (validated (sample_command "a.json" false EmptyString EmptyString)) []
  = ([EvGet "http://h/file/file:idx:ABC123"; EvReadFile "a.json";
      EvFprintln (confirmPrompt (world_answer "n") "http://h/content"
                    [ {| Name := "a.json";
                         Content := bytes_of_string "content of a.json";
                         ContentType := "application/json"; ID := EmptyString |} ]);
      EvPrompt; EvFprintln "Operation aborted"],
     Ok tt)
  /\ Sig.run (world_answer "n") (sample_sig_lib newPatch_accepts)
       (validated (sample_command "a.json" false EmptyString "KEY")) []
     = ([EvGet "http://h/file/file:idx:ABC123"; EvReadFile "a.json";
         EvFprintln (confirmPrompt (world_answer "n") "http://h/content"
                       [ {| Name := "a.json";
                            Content := bytes_of_string "content of a.json";
                            ContentType := "application/json"; ID := EmptyString |} ]);
         EvPrompt; EvFprintln "Operation aborted"],
        Ok tt).
Proof. split; reflexivity. Qed.

(** ** C4: a file without an extension *)

Lemma contentType_no_dot (w : World) (fileName : string) :
  has_byte "." fileName = false ->
  contentTypeFromFileName w fileName = Err errNoFileExtension.
Proof.
  intros H. unfold contentTypeFromFileName, strings_LastIndex.
  by rewrite (LastIndex_at_absent _ _ _ H).
Qed.

Lemma getFileInfo_no_dot (w : World) (path : string) (tr : Trace) :
  has_byte "." (fileNameOf path) = false ->
  getFileInfo w path tr = (tr, Err errNoFileExtension).
Proof.
  intros H. unfold getFileInfo, bind, lift.
  by rewrite (contentType_no_dot _ _ H).
Qed.

(** [getFileInfo] makes no call but to read the file. *)
Lemma getFileInfo_trace (w : World) (path : string) (tr : Trace) :
  exists evs, fst (getFileInfo w path tr) = tr ++ evs
    /\ Forall (fun ev => is_network ev = false) evs.
Proof.
  unfold getFileInfo; unfold_M.
  destruct (contentTypeFromFileName w (fileNameOf path)) as [ct|e]; simpl.
  - exists [EvReadFile (filepath_Clean w path)]. split.
    + by destruct (ioutil_ReadFile w tr _).
    + by constructor.
  - exists []. by rewrite app_nil_r.
Qed.

Lemma getFiles_loop_trace (w : World) (paths : list string) (f : files) (tr : Trace) :
  exists evs, fst (getFiles_loop w paths f tr) = tr ++ evs
    /\ Forall (fun ev => is_network ev = false) evs.
Proof.
  revert f tr. induction paths as [|p paths IH]; intros f tr; simpl.
  - exists []. by rewrite app_nil_r.
  - unfold bind.
    destruct (getFileInfo_trace w p tr) as (evs1 & H1 & Hn1).
    destruct (getFileInfo w p tr) as [tr1 [fi|e]]; simpl in H1; subst tr1.
    + destruct (IH (f ++ [fi]) (tr ++ evs1)) as (evs2 & H2 & Hn2).
      exists (evs1 ++ evs2). rewrite H2, app_assoc. split; [done|].
      by apply Forall_app.
    + by exists evs1.
Qed.

(** A path without an extension makes the loop of [getFiles] fail. *)
Lemma getFiles_loop_no_dot (w : World) (paths : list string) (p : string)
    (f : files) (tr : Trace) :
  p ∈ paths -> has_byte "." (fileNameOf p) = false ->
  exists e, snd (getFiles_loop w paths f tr) = Err e.
Proof.
  intros Hin Hp. revert f tr.
  induction paths as [|q paths IH]; intros f tr; [by apply elem_of_nil in Hin|].
  simpl. unfold bind.
  destruct (getFileInfo w q tr) as [tr1 [fi|e]] eqn:E; [|by exists e].
  apply elem_of_cons in Hin as [->|Hin].
  - rewrite (getFileInfo_no_dot _ _ _ Hp) in E. done.
  - by apply IH.
Qed.

(** It fails with the error of the missing extension when the paths
    before it load. *)
Lemma getFiles_loop_first_no_dot (w : World) (pre post : list string) (p : string)
    (f : files) (tr : Trace) :
  Forall (fun q => forall tr, exists fi, snd (getFileInfo w q tr) = Ok fi) pre ->
  has_byte "." (fileNameOf p) = false ->
  snd (getFiles_loop w (pre ++ p :: post) f tr) = Err errNoFileExtension.
Proof.
  intros Hpre Hp. revert f tr.
  induction Hpre as [|q pre Hq Hpre IH]; intros f tr; simpl; unfold bind.
  - by rewrite (getFileInfo_no_dot _ _ _ Hp).
  - destruct (Hq tr) as (fi & Hfi).
    destruct (getFileInfo w q tr) as [tr1 r]; simpl in Hfi; subst r.
    apply IH.
Qed.

(** C4 as amended. For every list of files with a path whose derived
    name has no ["."], the run fails, and the only network call it makes is
    the GET of the index document, with which [run] begins: there is no
    POST, neither of a file nor of an update.  When the index is fetched and
    the paths before that one load, the error is the one of the missing
    extension. *)
Theorem run_no_extension (w : World)
    (upd : command -> model_FileIndex -> files -> M unit)
    (c : command) (tr : Trace) (p : string) :
  p ∈ Split_byte (file c) ";" ->
  has_byte "." (fileNameOf p) = false ->
  exists (evs : Trace) (e : error),
    run w upd c tr = (tr ++ EvGet (fileIndexURL c) :: evs, Err e)
    /\ Forall (fun ev => is_network ev = false) evs
    /\ (forall tr1 fileIdx pre post,
          getFileIndex w c tr = (tr1, Ok fileIdx) ->
          Split_byte (file c) ";" = pre ++ p :: post ->
          Forall (fun q => forall tr', exists fi, snd (getFileInfo w q tr') = Ok fi) pre ->
          e = errNoFileExtension).
Proof.
  intros Hin Hp. unfold run, bind.
  pose proof (getFileIndex_trace w c tr) as Htr.
  destruct (getFileIndex w c tr) as [tr1 [fileIdx|e]]; simpl in Htr; subst tr1.
  - unfold getFiles.
    destruct (getFiles_loop_trace w (Split_byte (file c) ";") [] (tr ++ [EvGet (fileIndexURL c)]))
      as (evs & Hevs & Hnet).
    destruct (getFiles_loop_no_dot w _ p [] (tr ++ [EvGet (fileIndexURL c)]) Hin Hp)
      as (e & He).
    rewrite (surjective_pairing (getFiles_loop w _ _ _)), Hevs, He.
    exists evs, e. rewrite <- app_assoc. split; [done|]. split; [done|].
    intros tr1 fileIdx' pre post _ Hsplit Hpre.
    rewrite Hsplit in He.
    rewrite (getFiles_loop_first_no_dot w pre post p [] _ Hpre Hp) in He.
    congruence.
  - exists [], e. split; [done|]. split; [done|].
    intros tr1 fileIdx pre post [=].
Qed.

Lemma run_no_extension_witness :
  exists evs : Trace,
    Sig.run world_ok (sample_sig_lib newPatch_accepts)
      (validated (sample_command "a.json;README;b.png" true EmptyString "KEY")) []
    = ([] ++ EvGet "http://h/file/file:idx:ABC123" :: evs, Err errNoFileExtension)
    /\ Forall (fun ev => is_network ev = false) evs.
Proof.
  destruct (run_no_extension world_ok
              (Sig.updateIndexFile world_ok (sample_sig_lib newPatch_accepts))
              (validated (sample_command "a.json;README;b.png" true EmptyString "KEY")) []
              "README") as (evs & e & Hrun & Hnet & Hfirst).
  - vm_compute. apply list_elem_of_In. simpl. auto.
  - reflexivity.
  - exists evs. split; [|exact Hnet].
    rewrite <- (Hfirst [EvGet "http://h/file/file:idx:ABC123"] sample_index
                  ["a.json"] ["b.png"]); [exact Hrun | reflexivity | reflexivity |].
    constructor; [|constructor].
    intros tr'. eexists. reflexivity.
Defined.

(** C4 as stated fails: the file [README] has no extension, and the run
    of either variant fails with the error of the missing extension, but
    only after the GET of the index document. *)
Lemma run_no_extension_after_get :
  has_byte "." (fileNameOf "README") = false
  /\ OTP.execute world_ok (sample_otp_lib decode_accepts)
       (sample_command "README" true EmptyString EmptyString) []
     = ([EvGet "http://h/file/file:idx:ABC123"], Err errNoFileExtension)
  /\ Sig.execute world_ok (sample_sig_lib newPatch_accepts)
       (sample_command "README" true EmptyString "KEY") []
     = ([EvGet "http://h/file/file:idx:ABC123"], Err errNoFileExtension)
  /\ is_network (EvGet "http://h/file/file:idx:ABC123") = true.
Proof. repeat split. Qed.

(** ** C6: the uploads, one after the other *)

(** What one [upload] leaves in the trace: the POST of the file, unless
    the request could not be marshalled. *)
Lemma upload_trace (w : World) (c : command) (file : fileInfo) (tr tr' : Trace)
    (r : result string) :
  upload w (url c) (ContentType file) (Content file) tr = (tr', r) ->
  (tr' = tr /\ exists e, r = Err e)
  \/ (exists ev, is_upload_post w c file ev /\ tr' = tr ++ [ev]).
Proof.
  unfold upload, is_upload_post; unfold_M.
  destruct (json_Marshal_uploadFile w _) as [e|reqBytes]; simpl.
  - intros [= <- <-]. left. eauto.
  - intros H. right. exists (EvPost (url c) reqBytes). split; [eauto|].
    destruct (client_Post w tr (url c) reqBytes) as [e|resp]; simpl in H.
    + by injection H as <- _.
    + destruct (StatusCode resp =? http_StatusOK); simpl in H.
      * destruct (json_Unmarshal_string w (Payload resp)); simpl in H;
          by injection H as <- _.
      * by injection H as <- _.
Qed.

Lemma upload_ok_trace (w : World) (c : command) (file : fileInfo) (tr tr' : Trace)
    (id : string) :
  upload w (url c) (ContentType file) (Content file) tr = (tr', Ok id) ->
  exists ev, is_upload_post w c file ev /\ tr' = tr ++ [ev].
Proof.
  intros H. destruct (upload_trace _ _ _ _ _ _ H) as [[_ [e [=]]]|H']; done.
Qed.

(** The loop over the indices is the recursion over the files. *)
Lemma upload_loop_each (w : World) (c : command) (n i : nat) (f : files) (tr : Trace) :
  (i + n = length f)%nat ->
  upload_loop w c (seq i n) f tr =
    (rest <- upload_each w c (drop i f) ;; ret (take i f ++ rest)) tr.
Proof.
  revert i f tr. induction n as [|n IH]; intros i f tr Hlen.
  - simpl. rewrite drop_ge by lia. rewrite take_ge by lia.
    unfold bind, ret. simpl. by rewrite app_nil_r.
  - assert (is_Some (f !! i)) as [file Hfile] by (apply lookup_lt_is_Some; lia).
    rewrite (drop_S _ _ _ Hfile). simpl. rewrite Hfile.
    unfold bind at 1 2 3.
    destruct (upload w (url c) (ContentType file) (Content file) tr) as [tr1 [id|e]];
      [|done].
    rewrite IH by (rewrite length_insert; lia).
    unfold bind, ret.
    rewrite drop_insert_lt by lia.
    destruct (upload_each w c (drop (S i) f) tr1) as [tr2 [rest|e]]; [|done].
    f_equal. f_equal.
    rewrite (take_S_r _ _ (set_ID id file)).
    + rewrite take_insert_ge by lia. by rewrite <- app_assoc.
    + apply list_lookup_insert_eq. by eapply lookup_lt_Some.
Qed.

Lemma uploadFiles_each (w : World) (c : command) (f : files) (tr : Trace) :
  uploadFiles w c f tr = upload_each w c f tr.
Proof.
  unfold uploadFiles. rewrite upload_loop_each by lia.
  unfold bind, ret. rewrite drop_0, take_0.
  destruct (upload_each w c f tr) as [tr1 [rest|e]]; reflexivity.
Qed.

(** Uploads leave one POST per file, in the order of the files. *)
Lemma uploaded_trace (w : World) (c : command) (tr tr' : Trace) (fs : files)
    (ids : list string) :
  uploaded w c tr fs ids tr' ->
  length ids = length fs
  /\ exists evs, tr' = tr ++ evs /\ Forall2 (is_upload_post w c) fs evs.
Proof.
  induction 1 as [tr|tr tr1 tr2 file id rest ids Hup _ [IHlen (evs & -> & IH)]].
  - split; [done|]. exists []. by rewrite app_nil_r.
  - split; [simpl; lia|].
    destruct (upload_ok_trace _ _ _ _ _ _ Hup) as (ev & Hev & ->).
    exists (ev :: evs). rewrite <- app_assoc. split; [done|]. by constructor.
Qed.

Lemma upload_each_ok (w : World) (c : command) (todo done : files) (tr tr' : Trace) :
  upload_each w c todo tr = (tr', Ok done) ->
  exists ids, uploaded w c tr todo ids tr' /\ done = zip_with set_ID ids todo.
Proof.
  revert done tr. induction todo as [|file rest IH]; intros done tr; simpl.
  - intros [= <- <-]. exists []. split; [constructor|done].
  - unfold bind, ret.
    destruct (upload w (url c) (ContentType file) (Content file) tr)
      as [tr1 [id|e]] eqn:Hup; [|done].
    destruct (upload_each w c rest tr1) as [tr2 [rest'|e]] eqn:Hrest; [|done].
    intros [= <- <-].
    destruct (IH _ _ Hrest) as (ids & Hids & ->).
    exists (id :: ids). split; [by econstructor|done].
Qed.

Lemma upload_each_err (w : World) (c : command) (todo : files) (tr tr' : Trace)
    (e : error) :
  upload_each w c todo tr = (tr', Err e) ->
  exists (k : nat) (file : fileInfo) (ids : list string) (trk : Trace),
    todo !! k = Some file
    /\ uploaded w c tr (take k todo) ids trk
    /\ upload w (url c) (ContentType file) (Content file) trk = (tr', Err e).
Proof.
  revert tr. induction todo as [|file rest IH]; intros tr; simpl; [done|].
  unfold bind, ret.
  destruct (upload w (url c) (ContentType file) (Content file) tr)
    as [tr1 [id|e1]] eqn:Hup.
  - destruct (upload_each w c rest tr1) as [tr2 [rest'|e2]] eqn:Hrest; [done|].
    intros [= <- <-].
    destruct (IH _ Hrest) as (k & file' & ids & trk & Hk & Hids & Hfail).
    exists (S k), file', (id :: ids), trk. repeat split; [done| |done].
    simpl. by econstructor.
  - intros [= <- <-].
    exists 0%nat, file, [], tr. repeat split; [constructor|done].
Qed.

(** From its upload loop on, [run] is [run_upload]. *)
Lemma run_reaches_upload (w : World)
    (upd : command -> model_FileIndex -> files -> M unit)
    (c : command) (tr0 tr : Trace) (fileIdx : model_FileIndex) (f : files) :
  reaches_upload w c tr0 fileIdx f tr ->
  run w upd c tr0 = run_upload w upd c fileIdx f tr.
Proof.
  intros (tr1 & tr2 & Hidx & Hf & [[Hnp ->]|[Hnp Hconfirm]]);
    unfold run, bind; rewrite Hidx, Hf, Hnp; simpl; [done|].
  by rewrite Hconfirm.
Qed.

(** Setting the IDs changes the IDs and nothing else. *)
Lemma zip_with_set_ID_fields (ids : list string) (f : files) :
  length ids = length f ->
  map ID (zip_with set_ID ids f) = ids
  /\ map Name (zip_with set_ID ids f) = map Name f
  /\ map Content (zip_with set_ID ids f) = map Content f
  /\ map ContentType (zip_with set_ID ids f) = map ContentType f.
Proof.
  revert f. induction ids as [|id ids IH]; intros [|file f] Hlen; try done.
  simpl in Hlen. destruct (IH f) as (H1 & H2 & H3 & H4); [lia|].
  simpl. by rewrite H1, H2, H3, H4.
Qed.

(** C6. The upload loop of [run] uploads the files one at a time, in
    their order.  When every upload succeeds, the trace gains one POST per
    file, in order, and the list that the rest of the run works on is the
    same list with the ID of every file set to the one its upload
    returned, and with the name, the content and the content type of
    every file as they were.  When an upload fails, at index [k], the files before it
    have been posted, each once and in order, the failing upload adds at
    most its own POST, and a run that reached the loop ends there with the
    error of that upload: no later file is posted, no update request is
    built or posted, and nothing undoes the uploads that were made. *)
Theorem uploads_sequential (w : World)
    (upd : command -> model_FileIndex -> files -> M unit)
    (c : command) (fileIdx : model_FileIndex) (f : files) (tr : Trace) :
  match uploadFiles w c f tr with
  | (tr', Ok f') =>
      exists (ids : list string) (evs : Trace),
        uploaded w c tr f ids tr'
        /\ length ids = length f
        /\ f' = zip_with set_ID ids f
        /\ map ID f' = ids
        /\ map Name f' = map Name f
        /\ map Content f' = map Content f
        /\ map ContentType f' = map ContentType f
        /\ tr' = tr ++ evs
        /\ Forall2 (is_upload_post w c) f evs
        /\ (forall tr0, reaches_upload w c tr0 fileIdx f tr ->
              run w upd c tr0 =
                (_ <- upd c fileIdx f' ;;
                 call_err (EvFprint (files_String w f'))
                          (fun tr => Fprint w tr (files_String w f'))) tr')
  | (tr', Err e) =>
      exists (k : nat) (file : fileInfo) (ids : list string) (evs last : Trace),
        f !! k = Some file
        /\ uploaded w c tr (take k f) ids (tr ++ evs)
        /\ Forall2 (is_upload_post w c) (take k f) evs
        /\ upload w (url c) (ContentType file) (Content file) (tr ++ evs) = (tr', Err e)
        /\ tr' = tr ++ evs ++ last
        /\ (last = [] \/ exists ev, is_upload_post w c file ev /\ last = [ev])
        /\ (forall tr0, reaches_upload w c tr0 fileIdx f tr ->
              run w upd c tr0 = (tr', Err e))
  end.
Proof.
  destruct (uploadFiles w c f tr) as [tr' [f'|e]] eqn:Hloop.
  - pose proof Hloop as Heach. rewrite uploadFiles_each in Heach.
    destruct (upload_each_ok _ _ _ _ _ _ Heach) as (ids & Hids & ->).
    destruct (uploaded_trace _ _ _ _ _ _ Hids) as (Hlen & evs & -> & Hevs).
    destruct (zip_with_set_ID_fields ids f Hlen) as (HID & Hname & Hcontent & Htype).
    exists ids, evs. split_and!; try done.
    intros tr0 Hreach. rewrite (run_reaches_upload _ _ _ _ _ _ _ Hreach).
    unfold run_upload, bind at 1. by rewrite Hloop.
  - pose proof Hloop as Heach. rewrite uploadFiles_each in Heach.
    destruct (upload_each_err _ _ _ _ _ _ Heach)
      as (k & file & ids & trk & Hk & Hids & Hfail).
    destruct (uploaded_trace _ _ _ _ _ _ Hids) as (Hlen & evs & -> & Hevs).
    destruct (upload_trace _ _ _ _ _ _ Hfail) as [[-> _]|(ev & Hev & ->)].
    + exists k, file, ids, evs, []. rewrite app_nil_r.
      split_and!; try done; [by left|].
      intros tr0 Hreach. rewrite (run_reaches_upload _ _ _ _ _ _ _ Hreach).
      unfold run_upload, bind. by rewrite Hloop.
    + exists k, file, ids, evs, [ev].
      split_and!; try done; [by rewrite <- app_assoc | right; eauto |].
      intros tr0 Hreach. rewrite (run_reaches_upload _ _ _ _ _ _ _ Hreach).
      unfold run_upload, bind. by rewrite Hloop.
Qed.

Lemma uploads_sequential_witness :
  OTP.run world_second_upload_fails (sample_otp_lib decode_accepts)
    (validated (sample_command "a.json;b.png;c.json" true EmptyString EmptyString)) []
  = ([EvGet "http://h/file/file:idx:ABC123";
      EvReadFile "a.json"; EvReadFile "b.png"; EvReadFile "c.json";
      EvPost "http://h/content" (bytes_of_string "content of a.json");
      EvPost "http://h/content" (bytes_of_string "content of b.png")],
     Err (errUploadStatus 500 "storage unavailable"))
  /\ exists (f' : files) (ids : list string),
       uploadFiles world_ok
         (validated (sample_command "a.json;b.png;c.json" true EmptyString EmptyString))
         sample_loaded []
       = ([EvPost "http://h/content" (bytes_of_string "content of a.json");
           EvPost "http://h/content" (bytes_of_string "content of b.png");
           EvPost "http://h/content" (bytes_of_string "content of c.json")],
          Ok f')
       /\ map ID f' = ids
       /\ ids = ["id of content of a.json"; "id of content of b.png";
                 "id of content of c.json"]
       /\ map Name f' = ["a.json"; "b.png"; "c.json"].
Proof.
  split.
  - pose proof (uploads_sequential world_second_upload_fails
                  (OTP.updateIndexFile world_second_upload_fails
                     (sample_otp_lib decode_accepts))
                  (validated (sample_command "a.json;b.png;c.json" true EmptyString EmptyString))
                  sample_index sample_loaded
                  [EvGet "http://h/file/file:idx:ABC123";
                   EvReadFile "a.json"; EvReadFile "b.png"; EvReadFile "c.json"]) as H.
    change (uploadFiles _ _ _ _) with
      ([EvGet "http://h/file/file:idx:ABC123";
        EvReadFile "a.json"; EvReadFile "b.png"; EvReadFile "c.json";
        EvPost "http://h/content" (bytes_of_string "content of a.json");
        EvPost "http://h/content" (bytes_of_string "content of b.png")],
       @Err files (errUploadStatus 500 "storage unavailable")) in H.
    destruct H as (k & file & ids & evs & last & _ & _ & _ & _ & _ & _ & Hrun).
    apply Hrun.
    exists [EvGet "http://h/file/file:idx:ABC123"],
           [EvGet "http://h/file/file:idx:ABC123";
            EvReadFile "a.json"; EvReadFile "b.png"; EvReadFile "c.json"].
    split; [reflexivity|]. split; [reflexivity|]. left. split; reflexivity.
  - pose proof (uploads_sequential world_ok
                  (OTP.updateIndexFile world_ok (sample_otp_lib decode_accepts))
                  (validated (sample_command "a.json;b.png;c.json" true EmptyString EmptyString))
                  sample_index sample_loaded []) as H.
    destruct (uploadFiles world_ok _ sample_loaded []) as [tr' [f'|e]] eqn:Hloop;
      [|discriminate Hloop].
    destruct H as (ids & evs & Hup & _ & _ & HID & Hname & _ & _ & _ & _ & _).
    exists f', ids.
    assert (tr' = [EvPost "http://h/content" (bytes_of_string "content of a.json");
                   EvPost "http://h/content" (bytes_of_string "content of b.png");
                   EvPost "http://h/content" (bytes_of_string "content of c.json")])
      as -> by (injection Hloop as <- _; reflexivity).
    split; [reflexivity|]. split; [exact HID|].
    split; [|exact Hname].
    rewrite <- HID. injection Hloop as <-. reflexivity.
Defined.

(** A run in which DCAS refuses the second of three files: the first two
    are posted, the third is not, and no update request follows. *)
Example second_upload_fails :
  OTP.execute world_second_upload_fails (sample_otp_lib decode_accepts)
    (sample_command "a.json;b.png;c.json" true EmptyString EmptyString) []
  = ([EvGet "http://h/file/file:idx:ABC123";
      EvReadFile "a.json"; EvReadFile "b.png"; EvReadFile "c.json";
      EvPost "http://h/content" (bytes_of_string "content of a.json");
      EvPost "http://h/content" (bytes_of_string "content of b.png")],
     Err (errUploadStatus 500 "storage unavailable")).
Proof. reflexivity. Qed.

Example all_uploads_succeed :
  uploadFiles world_ok (validated (sample_command "a.json;b.png" true EmptyString EmptyString))
    [ {| Name := "a.json"; Content := bytes_of_string "A";
         ContentType := "application/json"; ID := EmptyString |};
      {| Name := "b.png"; Content := bytes_of_string "B";
         ContentType := "image/png"; ID := EmptyString |} ] []
  = ([EvPost "http://h/content" (bytes_of_string "A");
      EvPost "http://h/content" (bytes_of_string "B")],
     Ok [ {| Name := "a.json"; Content := bytes_of_string "A";
             ContentType := "application/json"; ID := "id of A" |};
          {| Name := "b.png"; Content := bytes_of_string "B";
             ContentType := "image/png"; ID := "id of B" |} ]).
Proof. reflexivity. Qed.

(** ** C3: where the patch is decoded *)

Lemma Sig_getUpdateRequest_eq (w : World) (l : Sig.Lib) (c : command)
    (patchStr suffix : string) (updatePatch : Sig.patch_Patch l)
    (signer : Sig.helper_Signer l) (tr tr1 : Trace) :
  getUniqueSuffix (fileIndexURL c) = Ok suffix ->
  Sig.patch_NewJSONPatch l patchStr = inr updatePatch ->
  Sig.updateKeySigner w l c tr = (tr1, Ok signer) ->
  Sig.getUpdateRequest w l c patchStr tr =
    (tr1 ++ [EvNewUpdateRequest suffix],
     of_ext (Sig.helper_NewUpdateRequest l tr1
               {| Sig.DidUniqueSuffix := suffix;
                  Sig.UpdateRevealValue := bytes_of_string (fileIndexUpdateOTP c);
                  Sig.NextUpdateRevealValue := bytes_of_string (fileIndexNextUpdateOTP c);
                  Sig.Patch_ := updatePatch;
                  Sig.MultihashCode := sha2_256;
                  Sig.Signer_ := signer |})).
Proof.
  intros Hs Hp Hk. unfold Sig.getUpdateRequest, bind, lift, call.
  by rewrite Hs, Hp, Hk.
Qed.

(** C3 as amended. Both variants turn the marshalled JSON patch into a
    typed patch before the update request is built.  The signing variant
    does it in [getUpdateRequest], with [patch.NewJSONPatch]: its
    [getUpdatePatch] returns the marshalled text as it is, the request that
    is built carries the typed patch, and a text that is refused ends the
    update before anything is built or posted.  The password variant does
    it in [getUpdatePatch], with [jsonpatch.DecodePatch]: what it returns
    is the typed patch that the decoder made, the request that is built
    carries it, and bytes that are refused end the update before anything
    is built or posted. *)
Theorem patch_decoded_in_both_variants (w : World) (lo : OTP.Lib) (ls : Sig.Lib)
    (c : command) (fileIdx : model_FileIndex) (fs : files) (tr : Trace)
    (patchBytes : bytes) (suffix : string) :
  json_Marshal_patch w (patch_loop fileIdx fs []) = inr patchBytes ->
  getUniqueSuffix (fileIndexURL c) = Ok suffix ->
  (Sig.getUpdatePatch w fileIdx fs = Ok (string_of_bytes patchBytes)
   /\ match Sig.patch_NewJSONPatch ls (string_of_bytes patchBytes) with
      | inl err =>
          Sig.updateIndexFile w ls c fileIdx fs tr = (tr, Err (errExternal err))
      | inr updatePatch =>
          forall tr1 signer,
            Sig.updateKeySigner w ls c tr = (tr1, Ok signer) ->
            Sig.getUpdateRequest w ls c (string_of_bytes patchBytes) tr =
              (tr1 ++ [EvNewUpdateRequest suffix],
               of_ext (Sig.helper_NewUpdateRequest ls tr1
                         {| Sig.DidUniqueSuffix := suffix;
                            Sig.UpdateRevealValue := bytes_of_string (fileIndexUpdateOTP c);
                            Sig.NextUpdateRevealValue :=
                              bytes_of_string (fileIndexNextUpdateOTP c);
                            Sig.Patch_ := updatePatch;
                            Sig.MultihashCode := sha2_256;
                            Sig.Signer_ := signer |}))
      end)
  /\ (OTP.getUpdatePatch w lo fileIdx fs
        = of_ext (OTP.jsonpatch_DecodePatch lo patchBytes)
      /\ match OTP.jsonpatch_DecodePatch lo patchBytes with
         | inl err =>
             OTP.updateIndexFile w lo c fileIdx fs tr = (tr, Err (errExternal err))
         | inr jsonPatch =>
             OTP.getUpdateRequest lo c jsonPatch tr =
               (tr ++ [EvNewUpdateRequest suffix],
                of_ext (OTP.helper_NewUpdateRequest lo tr
                          {| OTP.DidUniqueSuffix := suffix;
                             OTP.UpdateOTP :=
                               OTP.docutil_EncodeToString lo
                                 (bytes_of_string (fileIndexUpdateOTP c));
                             OTP.NextUpdateOTP :=
                               OTP.docutil_EncodeToString lo
                                 (bytes_of_string (fileIndexNextUpdateOTP c));
                             OTP.Patch_ := jsonPatch;
                             OTP.MultihashCode := sha2_256 |}))
         end).
Proof.
  intros Hm Hs.
  assert (Sig.getUpdatePatch w fileIdx fs = Ok (string_of_bytes patchBytes)) as Hsig.
  { unfold Sig.getUpdatePatch. by rewrite Hm. }
  assert (OTP.getUpdatePatch w lo fileIdx fs
          = of_ext (OTP.jsonpatch_DecodePatch lo patchBytes)) as Hotp.
  { unfold OTP.getUpdatePatch. rewrite Hm. simpl.
    by destruct (OTP.jsonpatch_DecodePatch lo patchBytes). }
  split; (split; [done|]).
  - destruct (Sig.patch_NewJSONPatch ls (string_of_bytes patchBytes))
      as [err|updatePatch] eqn:Hnew.
    + unfold Sig.updateIndexFile, updateIndexFile, bind, lift.
      rewrite Hsig. unfold Sig.getUpdateRequest, bind, lift.
      by rewrite Hs, Hnew.
    + intros tr1 signer Hk. by apply Sig_getUpdateRequest_eq.
  - destruct (OTP.jsonpatch_DecodePatch lo patchBytes) as [err|jsonPatch] eqn:Hdec.
    + unfold OTP.updateIndexFile, updateIndexFile, bind, lift. by rewrite Hotp.
    + unfold OTP.getUpdateRequest, bind, lift, call. by rewrite Hs.
Qed.

Lemma patch_decoded_in_both_variants_witness :
  Sig.getUpdatePatch world_ok sample_index sample_uploaded
    = Ok "/fileIndex/mappings/a.json"
  /\ OTP.getUpdatePatch world_ok (sample_otp_lib decode_accepts)
       sample_index sample_uploaded
     = Ok 26%nat.
Proof.
  destruct (patch_decoded_in_both_variants world_ok
              (sample_otp_lib decode_accepts) (sample_sig_lib newPatch_accepts)
              (validated (sample_command "a.json" true EmptyString "KEY"))
              sample_index sample_uploaded []
              (bytes_of_string "/fileIndex/mappings/a.json") "ABC123"
              eq_refl eq_refl) as [[Hsig _] [Hotp _]].
  split; [exact Hsig | exact Hotp].
Defined.

(** C3 as stated fails for the password variant: its [getUpdatePatch]
    does not hand the marshalled text on, it returns what
    [jsonpatch.DecodePatch] makes of it, and where the decoder refuses the
    bytes the update of the index ends with that error. *)
Lemma otp_variant_decodes_patch :
  json_Marshal_patch world_ok (patch_loop sample_index sample_uploaded [])
    = inr (bytes_of_string "/fileIndex/mappings/a.json")
  /\ OTP.getUpdatePatch world_ok (sample_otp_lib decode_accepts)
       sample_index sample_uploaded
     = Ok 26%nat
  /\ OTP.getUpdatePatch world_ok (sample_otp_lib decode_rejects)
       sample_index sample_uploaded
     = Err (errExternal "invalid patch")
  /\ OTP.updateIndexFile world_ok (sample_otp_lib decode_rejects)
       (validated (sample_command "a.json" true EmptyString EmptyString)) sample_index sample_uploaded []
     = ([], Err (errExternal "invalid patch")).
Proof. repeat split. Qed.

(** The signing variant, with a library that refuses the patch: the
    update ends before a request is built. *)
Example sig_variant_rejects_patch :
  Sig.updateIndexFile world_ok (sample_sig_lib newPatch_rejects)
    (validated (sample_command "a.json" true EmptyString "KEY"))
    sample_index sample_uploaded []
  = ([], Err (errExternal "invalid patch")).
Proof. reflexivity. Qed.

(** * Further properties *)

(** ** The index that [strings.LastIndex] returns *)

Lemma strings_LastIndex_cases (a : ascii) (s : string) :
  (has_byte a s = false /\ strings_LastIndex s (String a EmptyString) = -1)
  \/ (exists pre suf, s = (pre +:+ String a suf)%string
        /\ has_byte a suf = false
        /\ strings_LastIndex s (String a EmptyString) = len pre).
Proof.
  destruct (has_byte a s) eqn:E.
  - right. destruct (has_byte_split _ _ E) as (pre & suf & -> & Hsuf).
    exists pre, suf. by rewrite strings_LastIndex_last.
  - left. split; [done|]. by apply LastIndex_at_absent.
Qed.

Lemma len_append (s t : string) : len (s +:+ t) = len s + len t.
Proof. unfold len. rewrite length_append. lia. Qed.

(** X1. The index at which [getUniqueSuffix], [getFileInfo],
    [contentTypeFromFileName] and [validateAndProcessArgs] slice a string
    is the one that [strings.LastIndex] returned for a separator of one
    byte: it is -1 or an index of the string, at which the separator
    stands.  The slices [s[p+1:]], [s[p:]] and [s[0:p]] that the sources
    take are therefore within bounds, and they split the string at the
    separator. *)
Theorem LastIndex_in_bounds (a : ascii) (s : string) :
  let p := strings_LastIndex s (String a EmptyString) in
  -1 <= p < len s
  /\ (p = -1 <-> has_byte a s = false)
  /\ (p <> -1 ->
      s = (slice_to s p +:+ String a (slice_from s (p + 1)))%string
      /\ slice_from s p = String a (slice_from s (p + 1))
      /\ has_byte a (slice_from s (p + 1)) = false).
Proof.
  intros p. subst p.
  destruct (strings_LastIndex_cases a s) as [[Hno ->]|(pre & suf & -> & Hsuf & ->)].
  - split; [unfold len; lia|]. split; [done|]. done.
  - assert (0 <= len pre /\ 0 <= len suf) as [Hpre0 Hsuf0] by (unfold len; lia).
    assert (len (pre +:+ String a suf) = len pre + 1 + len suf) as Hlen.
    { rewrite len_append. unfold len. simpl String.length. lia. }
    split; [lia|].
    split.
    + split; [lia|]. rewrite has_byte_app. simpl.
      rewrite Ascii.eqb_refl, orb_true_r. done.
    + intros _. unfold slice_to, slice_from, len.
      rewrite Nat2Z.id.
      replace (Z.to_nat (Z.of_nat (String.length pre) + 1))
        with (S (String.length pre)) by lia.
      rewrite take_string_app, drop_string_app. split; [done|]. split; [|done].
      clear. induction pre as [|b pre IH]; [done|].
      rewrite append_String. simpl. exact IH.
Qed.

(** ** The name and the content type of a file *)

(** X2. The name that [getFileInfo] derives from a path is the part
    of the path after its last ["/"]: it holds no ["/"], and the path is a
    directory part, empty or ending in ["/"], followed by the name.  A
    path without ["/"] is its own name, and a path that ends in ["/"] has
    the empty name. *)
Theorem fileNameOf_spec (path : string) :
  has_byte "/" (fileNameOf path) = false
  /\ (exists dir, path = (dir +:+ fileNameOf path)%string
        /\ (dir = EmptyString \/ exists d, dir = (d +:+ "/")%string))
  /\ (has_byte "/" path = false -> fileNameOf path = path)
  /\ (forall d, path = (d +:+ "/")%string -> fileNameOf path = EmptyString).
Proof.
  unfold fileNameOf.
  destruct (strings_LastIndex_cases "/" path)
    as [[Hno Hp]|(pre & suf & -> & Hsuf & Hp)]; rewrite Hp.
  - simpl. split; [done|]. split; [exists EmptyString; auto|]. split; [done|].
    intros d ->. rewrite has_byte_app in Hno. simpl in Hno.
    by rewrite orb_true_r in Hno.
  - destruct (Z.eqb_spec (len pre) (-1)) as [E|_]; [unfold len in E; lia|].
    unfold slice_from, len.
    replace (Z.to_nat (Z.of_nat (String.length pre) + 1))
      with (S (String.length pre)) by lia.
    rewrite drop_string_app.
    assert ((pre +:+ String "/" suf)%string = ((pre +:+ "/") +:+ suf)%string) as Happ.
    { clear. induction pre as [|b pre IH]; [done|].
      rewrite !append_String. by rewrite IH. }
    split; [done|]. split; [exists (pre +:+ "/")%string; eauto|].
    split.
    + rewrite has_byte_app. simpl. by rewrite orb_true_r.
    + intros d Hd.
      assert (strings_LastIndex (d +:+ String "/" EmptyString) "/" = len d) as Hlast
        by (by apply strings_LastIndex_last).
      change (d +:+ String "/" EmptyString)%string with (d +:+ "/")%string in Hlast.
      rewrite <- Hd, Hp in Hlast.
      apply (f_equal String.length) in Hd.
      rewrite !length_append in Hd. simpl in Hd. unfold len in Hlast.
      destruct suf; [done|]. simpl in Hd. lia.
Qed.

(** X3. Only the last extension of a file name decides its content
    type: for a name [stem.ext] with no ["."] in [ext],
    [contentTypeFromFileName] asks [mime.TypeByExtension] for [".ext"],
    returns its answer when that is not empty, and fails with the error
    of the unknown extension when it is. *)
Theorem contentTypeFromFileName_last_extension (w : World) (stem ext : string) :
  has_byte "." ext = false ->
  contentTypeFromFileName w (stem +:+ "." +:+ ext) =
    if String.eqb (mime_TypeByExtension w ("." +:+ ext)) EmptyString
    then Err errUnknownExtension
    else Ok (mime_TypeByExtension w ("." +:+ ext)).
Proof.
  intros Hext. unfold contentTypeFromFileName.
  change (stem +:+ "." +:+ ext)%string with (stem +:+ String "." ext)%string.
  rewrite (strings_LastIndex_last "." stem ext Hext).
  destruct (Z.eqb_spec (len stem) (-1)) as [E|_]; [unfold len in E; lia|].
  assert (slice_from (stem +:+ String "." ext) (len stem) = String "." ext) as ->.
  { unfold slice_from, len. rewrite Nat2Z.id. clear.
    induction stem as [|b stem IH]; [done|]. rewrite append_String. exact IH. }
  reflexivity.
Qed.

Lemma contentTypeFromFileName_last_extension_witness :
  contentTypeFromFileName world_ok "archive.png.json" = Ok "application/json"
  /\ contentTypeFromFileName world_ok "a.json.bak" = Err errUnknownExtension.
Proof.
  split.
  - exact (contentTypeFromFileName_last_extension world_ok "archive.png" "json" eq_refl).
  - exact (contentTypeFromFileName_last_extension world_ok "a.json" "bak" eq_refl).
Defined.

(** ** The validation of the arguments *)

(** X4. [validateAndProcessArgs] of the password variant accepts the
    flags exactly when the upload URL is given and parses to a URL with a
    path, the files and both passwords are given, and the URL of the index
    document holds a ["/"].  The command it leaves has the path of the
    upload URL as its base path and, as the base URL of the index document,
    the URL of the index document up to its last ["/"]; every flag is as
    it was. *)
Theorem OTP_validate_iff (w : World) (c c' : command) :
  OTP.validateAndProcessArgs w c = Ok c' <->
  url c <> EmptyString
  /\ file c <> EmptyString
  /\ fileIndexUpdateOTP c <> EmptyString
  /\ fileIndexNextUpdateOTP c <> EmptyString
  /\ exists (u : URL) (base segment : string),
       url_Parse w (url c) = inr u
       /\ url_Path u <> EmptyString
       /\ fileIndexURL c = (base +:+ "/" +:+ segment)%string
       /\ has_byte "/" segment = false
       /\ c' = set_fileIndexBaseURL base (set_basePath (url_Path u) c).
Proof.
  unfold OTP.validateAndProcessArgs. split.
  - destruct (String.eqb_spec (url c) EmptyString) as [|Hurl]; [done|].
    destruct (url_Parse w (url c)) as [e|u]; [done|].
    destruct (String.eqb_spec (url_Path u) EmptyString) as [|Hpath]; [done|].
    cbn [file fileIndexURL fileIndexUpdateOTP fileIndexNextUpdateOTP set_basePath].
    destruct (String.eqb_spec (file c) EmptyString) as [|Hfile]; [done|].
    destruct (String.eqb_spec (fileIndexURL c) EmptyString) as [|Hidx]; [done|].
    destruct (strings_LastIndex_cases "/" (fileIndexURL c))
      as [[_ Hp]|(base & segment & Heq & Hseg & Hp)]; rewrite Hp; [done|].
    destruct (Z.eqb_spec (len base) (-1)) as [E|_]; [unfold len in E; lia|].
    destruct (String.eqb_spec (fileIndexUpdateOTP c) EmptyString) as [|Hotp]; [done|].
    destruct (String.eqb_spec (fileIndexNextUpdateOTP c) EmptyString) as [|Hnext]; [done|].
    intros [= <-]. split_and!; try done.
    exists u, base, segment. split_and!; try done.
    rewrite Heq at 1. unfold slice_to, len. by rewrite Nat2Z.id, take_string_app.
  - intros (Hurl & Hfile & Hotp & Hnext & u & base & segment & Hu & Hpath & Hidx & Hseg & ->).
    apply String.eqb_neq in Hurl, Hfile, Hotp, Hnext, Hpath.
    rewrite Hurl, Hu, Hpath.
    cbn [file fileIndexURL fileIndexUpdateOTP fileIndexNextUpdateOTP set_basePath].
    rewrite Hfile, Hotp, Hnext, Hidx.
    change (base +:+ "/" +:+ segment)%string with (base +:+ String "/" segment)%string.
    rewrite (strings_LastIndex_last "/" base segment Hseg).
    destruct (String.eqb_spec (base +:+ String "/" segment) EmptyString) as [E|_].
    { apply (f_equal String.length) in E. rewrite length_append in E. simpl in E. lia. }
    destruct (Z.eqb_spec (len base) (-1)) as [E|_]; [unfold len in E; lia|].
    unfold slice_to, len. rewrite Nat2Z.id, take_string_app. reflexivity.
Qed.

Lemma validateSigningKey_None (c : command) :
  Sig.validateSigningKey c = None <->
  (fileIndexSigningKeyFile c <> EmptyString /\ fileIndexSigningKeyString c = EmptyString)
  \/ (fileIndexSigningKeyFile c = EmptyString /\ fileIndexSigningKeyString c <> EmptyString).
Proof.
  unfold Sig.validateSigningKey.
  destruct (String.eqb_spec (fileIndexSigningKeyFile c) EmptyString);
    destruct (String.eqb_spec (fileIndexSigningKeyString c) EmptyString);
    simpl; (split; [intros H; try done; auto | intros [[? ?]|[? ?]]; congruence]).
Qed.

(** X5. The validation of the signing variant is the validation of the
    password variant followed by the check of the signing key: it fails
    with the same error wherever the password variant fails, and it
    accepts, with the same resulting command, exactly when the password
    variant accepts and one of the key and the key file, not both, is
    given. *)
Theorem Sig_validate_extends_OTP (w : World) (c : command) :
  (forall e, OTP.validateAndProcessArgs w c = Err e ->
             Sig.validateAndProcessArgs w c = Err e)
  /\ (forall c', Sig.validateAndProcessArgs w c = Ok c' <->
        OTP.validateAndProcessArgs w c = Ok c'
        /\ ((fileIndexSigningKeyFile c <> EmptyString
             /\ fileIndexSigningKeyString c = EmptyString)
            \/ (fileIndexSigningKeyFile c = EmptyString
                /\ fileIndexSigningKeyString c <> EmptyString))).
Proof.
  pose proof (validateSigningKey_None c) as Hkey.
  unfold Sig.validateAndProcessArgs, OTP.validateAndProcessArgs.
  change (Sig.validateSigningKey (set_basePath ?p c)) with (Sig.validateSigningKey c).
  split.
  - intros e. repeat (case_match; try done).
  - intros c'. repeat (case_match; try done);
      try (split; [done|by intros [? _]]).
    + split; [done|]. intros [_ Hk]. apply Hkey in Hk. done.
    + split; [|by intros [? _]]. intros Hk. split; [done|]. by apply Hkey.
Qed.

(** ** The fetch of the index document *)

(** X6. Every answer to the GET of the index document with a status
    other than 200 is an error: 404 is reported as the document not being
    found, every other status with its code and the message of the
    server.  The payload of such an answer is not looked at. *)
Theorem getFileIndex_status_error (w : World) (c : command) (tr : Trace)
    (resp : HTTPResponse) :
  client_Get w tr (fileIndexURL c) = inr resp ->
  StatusCode resp <> 200 ->
  getFileIndex w c tr =
    (tr ++ [EvGet (fileIndexURL c)],
     Err (if StatusCode resp =? 404
          then errFileIndexNotFound (fileIndexURL c)
          else errFileIndexStatus (fileIndexURL c) (StatusCode resp) (ErrorMsg resp))).
Proof.
  intros Hget Hcode. unfold getFileIndex. unfold_M.
  rewrite Hget. simpl. apply Z.eqb_neq in Hcode.
  unfold http_StatusOK, http_StatusNotFound. rewrite Hcode. simpl.
  by destruct (StatusCode resp =? 404).
Qed.

(** The deployment in which the index server answers with [status]. *)
Lemma getFileIndex_status_error_witness :
  getFileIndex (world_get_status 404) (validated (sample_command "a.json" true EmptyString EmptyString)) []
  = ([EvGet "http://h/file/file:idx:ABC123"],
     Err (errFileIndexNotFound "http://h/file/file:idx:ABC123"))
  /\ getFileIndex (world_get_status 503) (validated (sample_command "a.json" true EmptyString EmptyString)) []
     = ([EvGet "http://h/file/file:idx:ABC123"],
        Err (errFileIndexStatus "http://h/file/file:idx:ABC123" 503 "try later")).
Proof.
  split.
  - refine (getFileIndex_status_error (world_get_status 404)
              (validated (sample_command "a.json" true EmptyString EmptyString)) []
              {| StatusCode := 404; ErrorMsg := "try later"; Payload := [] |} _ _);
      [reflexivity | discriminate].
  - refine (getFileIndex_status_error (world_get_status 503)
              (validated (sample_command "a.json" true EmptyString EmptyString)) []
              {| StatusCode := 503; ErrorMsg := "try later"; Payload := [] |} _ _);
      [reflexivity | discriminate].
Defined.

(** X7. Whatever makes the fetch of the index document fail, the run
    ends with that error and the GET of the index document is all it did:
    no file is read, nobody is prompted, nothing is uploaded. *)
Theorem run_stops_when_fetch_fails (w : World)
    (upd : command -> model_FileIndex -> files -> M unit)
    (c : command) (tr tr' : Trace) (e : error) :
  getFileIndex w c tr = (tr', Err e) ->
  run w upd c tr = (tr ++ [EvGet (fileIndexURL c)], Err e).
Proof.
  intros H. pose proof (getFileIndex_trace w c tr) as Htr.
  rewrite H in Htr. simpl in Htr. subst tr'.
  by apply run_getFileIndex_err.
Qed.

Lemma run_stops_when_fetch_fails_witness :
  Sig.run (world_get_status 404) (sample_sig_lib newPatch_accepts)
    (validated (sample_command "a.json" false EmptyString "KEY")) []
  = ([EvGet "http://h/file/file:idx:ABC123"],
     Err (errFileIndexNotFound "http://h/file/file:idx:ABC123")).
Proof.
  refine (run_stops_when_fetch_fails (world_get_status 404) _
            (validated (sample_command "a.json" false EmptyString "KEY")) []
            [EvGet "http://h/file/file:idx:ABC123"] _ _).
  reflexivity.
Defined.

(** X8. [getFileIndex] returns an index exactly when the GET was
    answered with the status 200 and a payload that decodes to a document
    whose base path is the base path of the command; what it returns is
    the index of that document, and the GET is the one event it adds. *)
Theorem getFileIndex_ok_iff (w : World) (c : command) (tr tr' : Trace)
    (fileIdx : model_FileIndex) :
  getFileIndex w c tr = (tr', Ok fileIdx) <->
  tr' = tr ++ [EvGet (fileIndexURL c)]
  /\ exists resp doc,
       client_Get w tr (fileIndexURL c) = inr resp
       /\ StatusCode resp = 200
       /\ json_Unmarshal_FileIndexDoc w (Payload resp) = inr doc
       /\ BasePath (FileIndex doc) = basePath c
       /\ fileIdx = FileIndex doc.
Proof.
  unfold getFileIndex. unfold_M. split.
  - destruct (client_Get w tr (fileIndexURL c)) as [e|resp]; simpl; [done|].
    destruct (Z.eqb_spec (StatusCode resp) http_StatusOK) as [Hcode|]; simpl.
    + destruct (json_Unmarshal_FileIndexDoc w (Payload resp)) as [e|doc] eqn:Hdoc;
        simpl; [done|].
      destruct (String.eqb_spec (BasePath (FileIndex doc)) (basePath c)); simpl; [|done].
      intros [= <- <-]. split; [done|]. by exists resp, doc.
    + by destruct (StatusCode resp =? http_StatusNotFound).
  - intros (-> & resp & doc & Hget & Hcode & Hdoc & Hbp & ->).
    rewrite Hget. simpl. rewrite Hcode. simpl. rewrite Hdoc. simpl.
    apply String.eqb_eq in Hbp. by rewrite Hbp.
Qed.

(** ** The list of files *)

Lemma Split_byte_nonempty (s : string) (sep : ascii) : Split_byte s sep <> [].
Proof.
  destruct s as [|a s]; [done|]. simpl.
  destruct (Split_byte s sep); [done|]. by destruct (Ascii.eqb a sep).
Qed.

Lemma Split_byte_app (s1 s2 : string) (sep : ascii) :
  Split_byte (s1 +:+ String sep s2) sep = Split_byte s1 sep ++ Split_byte s2 sep.
Proof.
  induction s1 as [|a s1 IH].
  - rewrite append_empty. simpl.
    pose proof (Split_byte_nonempty s2 sep).
    destruct (Split_byte s2 sep); [done|]. by rewrite Ascii.eqb_refl.
  - rewrite append_String. simpl. rewrite IH.
    pose proof (Split_byte_nonempty s1 sep).
    destruct (Split_byte s1 sep) as [|q qs]; [done|]. simpl.
    by destruct (Ascii.eqb a sep).
Qed.

Lemma Split_byte_absent (s : string) (sep : ascii) :
  has_byte sep s = false -> Split_byte s sep = [s].
Proof.
  induction s as [|a s IH]; [done|]. simpl.
  intros H. apply orb_false_iff in H as [Ha Hs].
  by rewrite (IH Hs), Ha.
Qed.

Lemma concat_cons_cons (sep x y : string) (l : list string) :
  String.concat sep (x :: y :: l) = (x +:+ sep +:+ String.concat sep (y :: l))%string.
Proof. reflexivity. Qed.

(** X9. The paths that [getFiles] goes through are the pieces of the
    [--files] flag between its semicolons: there is one more of them than
    there are semicolons (so at least one), none of them holds a
    semicolon, and joined by semicolons they give the flag back. *)
Theorem getFiles_paths (s : string) :
  length (Split_byte s ";") = S (count_byte ";" s)
  /\ Forall (fun p => has_byte ";" p = false) (Split_byte s ";")
  /\ String.concat ";" (Split_byte s ";") = s.
Proof.
  induction s as [|a s (IHlen & IHno & IHcat)]; [by repeat constructor|].
  simpl. pose proof (Split_byte_nonempty s ";") as Hne.
  destruct (Split_byte s ";") as [|q qs]; [done|].
  destruct (Ascii.eqb_spec a ";") as [->|Hneq].
  - split; [simpl in *; lia|]. split; [by constructor|].
    rewrite concat_cons_cons, IHcat. reflexivity.
  - split; [simpl in *; lia|]. split.
    + inversion IHno as [|? ? Hq Hqs]; subst. constructor; [|done].
      simpl. apply Ascii.eqb_neq in Hneq. by rewrite Hneq.
    + destruct qs as [|q' qs].
      * simpl in *. by rewrite IHcat.
      * rewrite concat_cons_cons in *. rewrite append_String. by rewrite IHcat.
Qed.

Lemma getFileInfo_ok_inv (w : World) (path : string) (tr tr' : Trace) (fi : fileInfo) :
  getFileInfo w path tr = (tr', Ok fi) ->
  tr' = tr ++ [read_event w path]
  /\ Name fi = fileNameOf path
  /\ contentTypeFromFileName w (fileNameOf path) = Ok (ContentType fi)
  /\ ioutil_ReadFile w tr (filepath_Clean w path) = inr (Content fi)
  /\ ID fi = EmptyString.
Proof.
  unfold getFileInfo. unfold_M.
  destruct (contentTypeFromFileName w (fileNameOf path)) as [ct|e]; simpl; [|done].
  destruct (ioutil_ReadFile w tr (filepath_Clean w path)) as [x|content]; simpl; [done|].
  by intros [= <- <-].
Qed.

Lemma getFileInfo_err_inv (w : World) (path : string) (tr tr' : Trace) (e : error) :
  getFileInfo w path tr = (tr', Err e) ->
  (tr' = tr /\ contentTypeFromFileName w (fileNameOf path) = Err e)
  \/ (tr' = tr ++ [read_event w path]
      /\ exists x, e = errExternal x
           /\ ioutil_ReadFile w tr (filepath_Clean w path) = inl x).
Proof.
  unfold getFileInfo. unfold_M.
  destruct (contentTypeFromFileName w (fileNameOf path)) as [ct|e']; simpl.
  - destruct (ioutil_ReadFile w tr (filepath_Clean w path)) as [x|content]; simpl; [|done].
    intros [= <- <-]. right. eauto.
  - intros [= <- <-]. by left.
Qed.

Lemma getFiles_loop_ok (w : World) (paths : list string) (f f' : files)
    (tr tr' : Trace) :
  getFiles_loop w paths f tr = (tr', Ok f') ->
  exists new : files,
    f' = f ++ new
    /\ length new = length paths
    /\ tr' = tr ++ map (read_event w) paths
    /\ forall (i : nat) (p : string), paths !! i = Some p ->
         exists fi, new !! i = Some fi
           /\ Name fi = fileNameOf p
           /\ contentTypeFromFileName w (fileNameOf p) = Ok (ContentType fi)
           /\ ioutil_ReadFile w (tr ++ map (read_event w) (take i paths))
                (filepath_Clean w p) = inr (Content fi)
           /\ ID fi = EmptyString.
Proof.
  revert f tr. induction paths as [|p paths IH]; intros f tr; simpl.
  - intros [= <- <-]. exists []. rewrite !app_nil_r. by split_and!.
  - unfold bind. destruct (getFileInfo w p tr) as [tr1 [fi|e]] eqn:Hfi; [|done].
    intros Hloop.
    destruct (getFileInfo_ok_inv _ _ _ _ _ Hfi) as (-> & Hname & Hct & Hread & Hid).
    destruct (IH _ _ Hloop) as (new & -> & Hlen & -> & Hnew).
    exists (fi :: new). rewrite <- !app_assoc. split_and!; try done; [simpl; lia|].
    intros [|i] q Hq; simpl in Hq.
    + injection Hq as <-. exists fi. simpl. rewrite app_nil_r. by split_and!.
    + destruct (Hnew i q Hq) as (fi' & ? & ? & ? & Hr & ?).
      exists fi'. simpl. rewrite <- app_assoc in Hr. by split_and!.
Qed.

(** X10. When [getFiles] succeeds, it read every path of the flag once,
    in the order of the flag, and returns one file per path, in that
    order: its name is derived from the path, its content type from the
    name, its content is what the read returned, and its ID is still
    empty.  The list is never empty. *)
Theorem getFiles_ok (w : World) (c : command) (tr tr' : Trace) (f : files) :
  getFiles w c tr = (tr', Ok f) ->
  let paths := Split_byte (file c) ";" in
  length f = length paths
  /\ f <> []
  /\ tr' = tr ++ map (read_event w) paths
  /\ forall (i : nat) (p : string), paths !! i = Some p ->
       exists fi, f !! i = Some fi
         /\ Name fi = fileNameOf p
         /\ contentTypeFromFileName w (fileNameOf p) = Ok (ContentType fi)
         /\ ioutil_ReadFile w (tr ++ map (read_event w) (take i paths))
              (filepath_Clean w p) = inr (Content fi)
         /\ ID fi = EmptyString.
Proof.
  intros H paths. subst paths. unfold getFiles in H.
  destruct (getFiles_loop_ok _ _ _ _ _ _ H) as (new & -> & Hlen & -> & Hnew).
  simpl. split_and!; try done.
  pose proof (Split_byte_nonempty (file c) ";").
  destruct new; [|done]. destruct (Split_byte (file c) ";"); done.
Qed.

Lemma getFiles_ok_witness :
  length sample_loaded = length (Split_byte "a.json;b.png;c.json" ";")
  /\ sample_loaded <> []
  /\ [EvReadFile "a.json"; EvReadFile "b.png"; EvReadFile "c.json"]
     = [] ++ map (read_event world_ok) (Split_byte "a.json;b.png;c.json" ";").
Proof.
  destruct (getFiles_ok world_ok
              (validated (sample_command "a.json;b.png;c.json" true EmptyString EmptyString))
              [] [EvReadFile "a.json"; EvReadFile "b.png"; EvReadFile "c.json"]
              sample_loaded eq_refl) as (Hlen & Hne & Htr & _).
  split; [exact Hlen|]. split; [exact Hne|exact Htr].
Defined.

Lemma getFiles_loop_err (w : World) (paths : list string) (f : files)
    (tr tr' : Trace) (e : error) :
  getFiles_loop w paths f tr = (tr', Err e) ->
  exists (k : nat) (p : string),
    paths !! k = Some p
    /\ (forall q, q ∈ take k paths ->
          exists ct, contentTypeFromFileName w (fileNameOf q) = Ok ct)
    /\ ((tr' = tr ++ map (read_event w) (take k paths)
         /\ contentTypeFromFileName w (fileNameOf p) = Err e)
        \/ (tr' = tr ++ map (read_event w) (take (S k) paths)
            /\ exists x, e = errExternal x
                 /\ ioutil_ReadFile w (tr ++ map (read_event w) (take k paths))
                      (filepath_Clean w p) = inl x)).
Proof.
  revert f tr. induction paths as [|p paths IH]; intros f tr; simpl; [done|].
  unfold bind. destruct (getFileInfo w p tr) as [tr1 [fi|e1]] eqn:Hfi.
  - intros Hloop.
    destruct (getFileInfo_ok_inv _ _ _ _ _ Hfi) as (-> & _ & Hct & _).
    destruct (IH _ _ Hloop) as (k & q & Hq & Hbefore & Hcase).
    exists (S k), q. split; [done|]. split.
    + intros q' Hq'. simpl in Hq'. apply elem_of_cons in Hq' as [->|Hq']; eauto.
    + simpl. rewrite <- !app_assoc in Hcase. exact Hcase.
  - intros [= <- <-]. exists 0%nat, p. split; [done|].
    split; [intros q Hq; by apply elem_of_nil in Hq|].
    simpl. rewrite app_nil_r.
    destruct (getFileInfo_err_inv _ _ _ _ _ Hfi) as [[-> ?]|(-> & x & -> & ?)];
      [left|right]; eauto.
Qed.

(** X11. When [getFiles] fails, it is at the first path that cannot be
    loaded: the paths before it were read, each once and in order; the
    failing path was not read at all when its name has no known
    extension, and was read once when it is the read that failed; no later
    path was touched. *)
Theorem getFiles_err (w : World) (c : command) (tr tr' : Trace) (e : error) :
  getFiles w c tr = (tr', Err e) ->
  let paths := Split_byte (file c) ";" in
  exists (k : nat) (p : string),
    paths !! k = Some p
    /\ (forall q, q ∈ take k paths ->
          exists ct, contentTypeFromFileName w (fileNameOf q) = Ok ct)
    /\ ((tr' = tr ++ map (read_event w) (take k paths)
         /\ contentTypeFromFileName w (fileNameOf p) = Err e)
        \/ (tr' = tr ++ map (read_event w) (take (S k) paths)
            /\ exists x, e = errExternal x
                 /\ ioutil_ReadFile w (tr ++ map (read_event w) (take k paths))
                      (filepath_Clean w p) = inl x)).
Proof.
  intros H paths. subst paths. unfold getFiles in H.
  destruct (getFiles_loop_err _ _ _ _ _ _ H) as (k & p & Hk & Hbefore & Hcase).
  exists k, p. split_and!; try done.
Qed.

Lemma getFiles_err_witness :
  exists (k : nat) (p : string),
    Split_byte "a.json;b.bak;c.json" ";" !! k = Some p
    /\ [EvReadFile "a.json"]
       = [] ++ map (read_event world_ok) (take k (Split_byte "a.json;b.bak;c.json" ";"))
    /\ contentTypeFromFileName world_ok (fileNameOf p) = Err errUnknownExtension.
Proof.
  destruct (getFiles_err world_ok
              (validated (sample_command "a.json;b.bak;c.json" true EmptyString EmptyString))
              [] [EvReadFile "a.json"] errUnknownExtension eq_refl)
    as (k & p & Hk & _ & [[Htr Hct]|(Htr & x & [=] & _)]).
  exists k, p. split; [exact Hk|]. split; [exact Htr|exact Hct].
Defined.

(** X12. A [--files] flag with an empty piece (a semicolon at its
    beginning or at its end, or two semicolons in a row) is never
    accepted: the empty path has a name without extension, and [getFiles]
    fails. *)
Theorem getFiles_empty_piece (w : World) (c : command) (tr : Trace) (s1 s2 : string) :
  file c = (s1 +:+ ";" +:+ s2)%string ->
  s1 = EmptyString \/ s2 = EmptyString \/ (exists t, s2 = (";" +:+ t)%string) ->
  exists (tr' : Trace) (e : error), getFiles w c tr = (tr', Err e).
Proof.
  intros Hfile Hempty.
  assert (EmptyString ∈ Split_byte (file c) ";") as Hin.
  { rewrite Hfile.
    change (s1 +:+ ";" +:+ s2)%string with (s1 +:+ String ";" s2)%string.
    rewrite Split_byte_app. apply elem_of_app.
    destruct Hempty as [->|[->|[t ->]]].
    - left. simpl. apply list_elem_of_here.
    - right. simpl. apply list_elem_of_here.
    - right. change (";" +:+ t)%string with (EmptyString +:+ String ";" t)%string.
      rewrite Split_byte_app. simpl. apply list_elem_of_here. }
  destruct (getFiles_loop_no_dot w _ EmptyString [] tr Hin eq_refl) as (e & He).
  unfold getFiles. destruct (getFiles_loop w _ [] tr) as [tr' r].
  simpl in He. subst r. by exists tr', e.
Qed.

Lemma getFiles_empty_piece_witness :
  exists (tr' : Trace) (e : error),
    getFiles world_ok
      (validated (sample_command "a.json;" true EmptyString EmptyString)) []
    = (tr', Err e).
Proof.
  refine (getFiles_empty_piece world_ok
            (validated (sample_command "a.json;" true EmptyString EmptyString)) []
            "a.json" EmptyString _ _); [reflexivity | right; left; reflexivity].
Defined.

(** ** One upload *)

(** X13. [upload] returns an ID exactly when the request could be
    marshalled, the POST to the given URL was answered with the status
    200, and the payload of the answer decodes to that ID; the POST is then
    the one event it adds.  Any other status, another 2xx among them, is a
    failure with the code and the message of the server, whatever the
    payload. *)
Theorem upload_ok_iff (w : World) (url contentType : string) (fileBytes : bytes)
    (tr tr' : Trace) (id : string) :
  (upload w url contentType fileBytes tr = (tr', Ok id) <->
   exists reqBytes resp,
     json_Marshal_uploadFile w
       {| uf_ContentType := contentType; uf_Content := fileBytes |} = inr reqBytes
     /\ client_Post w tr url reqBytes = inr resp
     /\ StatusCode resp = 200
     /\ json_Unmarshal_string w (Payload resp) = inr id
     /\ tr' = tr ++ [EvPost url reqBytes])
  /\ (forall reqBytes resp,
        json_Marshal_uploadFile w
          {| uf_ContentType := contentType; uf_Content := fileBytes |} = inr reqBytes ->
        client_Post w tr url reqBytes = inr resp ->
        StatusCode resp <> 200 ->
        upload w url contentType fileBytes tr =
          (tr ++ [EvPost url reqBytes],
           Err (errUploadStatus (StatusCode resp) (ErrorMsg resp)))).
Proof.
  unfold upload. unfold_M. split; [split|].
  - destruct (json_Marshal_uploadFile w _) as [e|reqBytes]; simpl; [done|].
    destruct (client_Post w tr url reqBytes) as [e|resp] eqn:Hpost; simpl; [done|].
    destruct (Z.eqb_spec (StatusCode resp) http_StatusOK) as [Hcode|]; simpl; [|done].
    destruct (json_Unmarshal_string w (Payload resp)) as [e|id'] eqn:Hid; simpl; [done|].
    intros [= <- <-]. by exists reqBytes, resp.
  - intros (reqBytes & resp & -> & Hpost & Hcode & Hid & ->). simpl.
    rewrite Hpost. simpl. rewrite Hcode. simpl. by rewrite Hid.
  - intros reqBytes resp -> Hpost Hcode. simpl. rewrite Hpost. simpl.
    apply Z.eqb_neq in Hcode. unfold http_StatusOK. by rewrite Hcode.
Qed.

Lemma upload_ok_iff_witness :
  upload world_second_upload_fails "http://h/content" "image/png"
    (bytes_of_string "B") [EvPost "http://h/content" (bytes_of_string "A")]
  = ([EvPost "http://h/content" (bytes_of_string "A");
      EvPost "http://h/content" (bytes_of_string "B")],
     Err (errUploadStatus 500 "storage unavailable")).
Proof.
  refine (proj2 (upload_ok_iff world_second_upload_fails "http://h/content" "image/png"
                   (bytes_of_string "B")
                   [EvPost "http://h/content" (bytes_of_string "A")] [] EmptyString)
            (bytes_of_string "B")
            {| StatusCode := 500; ErrorMsg := "storage unavailable"; Payload := [] |}
            _ _ _); [reflexivity | reflexivity | discriminate].
Defined.

(** ** The update of the index document *)

Lemma getUniqueSuffix_absent (id : string) :
  has_byte ":" id = false ->
  getUniqueSuffix id = Err (errUniqueSuffixNotProvided id).
Proof.
  intros H. unfold getUniqueSuffix, strings_LastIndex.
  by rewrite (LastIndex_at_absent _ _ _ H).
Qed.

(** X14. When [updateIndexFile] of the password variant succeeds, it
    added two events, in this order: the building of one update request,
    for the unique suffix of the URL of the index document, and one POST
    of that request to the base URL of the index document, which was
    answered with the status 200.  The request was built from the patch
    that [getUpdatePatch] returned for the index and the files, the two
    passwords, each encoded, and the code 18 of the hash. *)
Theorem OTP_updateIndexFile_ok (w : World) (l : OTP.Lib) (c : command)
    (fileIdx : model_FileIndex) (fs : files) (tr tr' : Trace) :
  OTP.updateIndexFile w l c fileIdx fs tr = (tr', Ok tt) ->
  exists (suffix : string) (patch : OTP.jsonpatch_Patch l) (req : bytes)
         (resp : HTTPResponse),
    getUniqueSuffix (fileIndexURL c) = Ok suffix
    /\ OTP.getUpdatePatch w l fileIdx fs = Ok patch
    /\ OTP.helper_NewUpdateRequest l tr
         {| OTP.DidUniqueSuffix := suffix;
            OTP.UpdateOTP :=
              OTP.docutil_EncodeToString l (bytes_of_string (fileIndexUpdateOTP c));
            OTP.NextUpdateOTP :=
              OTP.docutil_EncodeToString l (bytes_of_string (fileIndexNextUpdateOTP c));
            OTP.Patch_ := patch;
            OTP.MultihashCode := 18 |} = inr req
    /\ client_Post w (tr ++ [EvNewUpdateRequest suffix]) (fileIndexBaseURL c) req = inr resp
    /\ StatusCode resp = 200
    /\ tr' = tr ++ [EvNewUpdateRequest suffix; EvPost (fileIndexBaseURL c) req].
Proof.
  unfold OTP.updateIndexFile, updateIndexFile, OTP.getUpdateRequest. unfold_M.
  destruct (OTP.getUpdatePatch w l fileIdx fs) as [patch|e]; [|done].
  destruct (getUniqueSuffix (fileIndexURL c)) as [suffix|e]; [|done].
  simpl.
  destruct (OTP.helper_NewUpdateRequest l tr _) as [e|req] eqn:Hreq; simpl; [done|].
  destruct (client_Post w _ (fileIndexBaseURL c) req) as [e|resp] eqn:Hpost; simpl; [done|].
  destruct (Z.eqb_spec (StatusCode resp) http_StatusOK) as [Hcode|]; simpl; [|done].
  intros [= <-]. exists suffix, patch, req, resp.
  rewrite <- app_assoc. by split_and!.
Qed.

Lemma OTP_updateIndexFile_ok_witness :
  exists (suffix : string) (req : bytes),
    getUniqueSuffix "http://h/file/file:idx:ABC123" = Ok suffix
    /\ [EvNewUpdateRequest "ABC123"; EvPost "http://h/file" (bytes_of_string "ABC123")]
       = [] ++ [EvNewUpdateRequest suffix; EvPost "http://h/file" req].
Proof.
  destruct (OTP_updateIndexFile_ok world_ok (sample_otp_lib decode_accepts)
              (validated (sample_command "a.json" true EmptyString EmptyString))
              sample_index sample_uploaded []
              [EvNewUpdateRequest "ABC123"; EvPost "http://h/file" (bytes_of_string "ABC123")]
              eq_refl) as (suffix & patch & req & resp & Hs & _ & _ & _ & _ & Htr).
  exists suffix, req. split; [exact Hs | exact Htr].
Defined.

(** X15. The URL of the index document is not checked for a unique
    suffix before the update: when it holds no [":"], each variant, once
    its patch is made, ends the update with the error of the missing
    suffix, without reading a key, building a request or posting
    anything. *)
Theorem updateIndexFile_missing_suffix (w : World) (lo : OTP.Lib) (ls : Sig.Lib)
    (c : command) (fileIdx : model_FileIndex) (fs : files) (tr : Trace) :
  has_byte ":" (fileIndexURL c) = false ->
  (forall patch, OTP.getUpdatePatch w lo fileIdx fs = Ok patch ->
     OTP.updateIndexFile w lo c fileIdx fs tr =
       (tr, Err (errUniqueSuffixNotProvided (fileIndexURL c))))
  /\ (forall patchStr, Sig.getUpdatePatch w fileIdx fs = Ok patchStr ->
        Sig.updateIndexFile w ls c fileIdx fs tr =
          (tr, Err (errUniqueSuffixNotProvided (fileIndexURL c)))).
Proof.
  intros Hno. pose proof (getUniqueSuffix_absent _ Hno) as Hs. split.
  - intros patch Hp.
    unfold OTP.updateIndexFile, updateIndexFile, OTP.getUpdateRequest. unfold_M.
    by rewrite Hp, Hs.
  - intros patchStr Hp.
    unfold Sig.updateIndexFile, updateIndexFile, Sig.getUpdateRequest. unfold_M.
    by rewrite Hp, Hs.
Qed.

Lemma updateIndexFile_missing_suffix_witness :
  OTP.updateIndexFile world_ok (sample_otp_lib decode_accepts)
    command_without_suffix sample_index sample_uploaded []
  = ([], Err (errUniqueSuffixNotProvided "h/file/idx"))
  /\ Sig.updateIndexFile world_ok (sample_sig_lib newPatch_accepts)
       command_without_suffix sample_index sample_uploaded []
     = ([], Err (errUniqueSuffixNotProvided "h/file/idx")).
Proof.
  destruct (updateIndexFile_missing_suffix world_ok (sample_otp_lib decode_accepts)
              (sample_sig_lib newPatch_accepts) command_without_suffix
              sample_index sample_uploaded [] eq_refl) as [Ho Hs].
  split.
  - exact (Ho 26%nat eq_refl).
  - exact (Hs "/fileIndex/mappings/a.json" eq_refl).
Defined.

(** The key of the signing variant: where it comes from, and what its
    reading leaves in the trace. *)
Lemma signingPrivateKey_inv (w : World) (l : Sig.Lib) (c : command) (tr tr' : Trace)
    (r : result (Sig.ecdsa_PrivateKey l)) :
  Sig.signingPrivateKey w l c tr = (tr', r) ->
  tr' = tr ++ key_events w c
  /\ ((exists keyBytes, key_source w c tr keyBytes
          /\ r = Sig.privateKeyFromPEM l keyBytes)
      \/ (exists x, fileIndexSigningKeyFile c <> EmptyString
            /\ ioutil_ReadFile w tr (filepath_Clean w (fileIndexSigningKeyFile c)) = inl x
            /\ r = Err (errExternal x))).
Proof.
  unfold Sig.signingPrivateKey, Sig.privateKeyFromFile, key_events, key_source, read_event.
  unfold_M.
  destruct (String.eqb_spec (fileIndexSigningKeyFile c) EmptyString) as [Hf|Hf]; simpl.
  - intros [= <- <-]. rewrite app_nil_r. split; [done|]. left. eauto.
  - destruct (ioutil_ReadFile w tr _) as [x|keyBytes] eqn:Hread; simpl;
      intros [= <- <-]; (split; [done|]); [right|left]; eauto.
Qed.

(** X16. When [updateIndexFile] of the signing variant succeeds, the
    events it added are, in this order: the reading of the key file, if
    the key is in a file; the building of one update request, for the
    unique suffix of the URL of the index document; and one POST of that
    request to the base URL of the index document, answered with the
    status 200.  The request carries the typed patch that
    [patch.NewJSONPatch] made of the marshalled patch, the two passwords
    as they are, the code 18, and a signer for the key that was parsed
    from the key file, or from the key flag when no file is given. *)
Theorem Sig_updateIndexFile_ok (w : World) (l : Sig.Lib) (c : command)
    (fileIdx : model_FileIndex) (fs : files) (tr tr' : Trace) :
  Sig.updateIndexFile w l c fileIdx fs tr = (tr', Ok tt) ->
  exists (suffix patchStr : string) (updatePatch : Sig.patch_Patch l)
         (keyBytes : bytes) (privateKey : Sig.ecdsa_PrivateKey l)
         (req : bytes) (resp : HTTPResponse),
    getUniqueSuffix (fileIndexURL c) = Ok suffix
    /\ Sig.getUpdatePatch w fileIdx fs = Ok patchStr
    /\ Sig.patch_NewJSONPatch l patchStr = inr updatePatch
    /\ key_source w c tr keyBytes
    /\ Sig.privateKeyFromPEM l keyBytes = Ok privateKey
    /\ Sig.helper_NewUpdateRequest l (tr ++ key_events w c)
         {| Sig.DidUniqueSuffix := suffix;
            Sig.UpdateRevealValue := bytes_of_string (fileIndexUpdateOTP c);
            Sig.NextUpdateRevealValue := bytes_of_string (fileIndexNextUpdateOTP c);
            Sig.Patch_ := updatePatch;
            Sig.MultihashCode := 18;
            Sig.Signer_ :=
              Sig.ecsigner_New l privateKey "ES256" (Sig.model_UpdateKeyID l) |} = inr req
    /\ client_Post w (tr ++ key_events w c ++ [EvNewUpdateRequest suffix])
         (fileIndexBaseURL c) req = inr resp
    /\ StatusCode resp = 200
    /\ tr' = tr ++ key_events w c
               ++ [EvNewUpdateRequest suffix; EvPost (fileIndexBaseURL c) req].
Proof.
  unfold Sig.updateIndexFile, updateIndexFile, Sig.getUpdateRequest, Sig.updateKeySigner.
  unfold bind at 1 2 3 4 5 6. unfold lift.
  destruct (Sig.getUpdatePatch w fileIdx fs) as [patchStr|e]; [|done].
  destruct (getUniqueSuffix (fileIndexURL c)) as [suffix|e]; [|done].
  destruct (Sig.patch_NewJSONPatch l patchStr) as [e|updatePatch] eqn:Hnew; simpl; [done|].
  destruct (Sig.signingPrivateKey w l c tr) as [tr1 r] eqn:Hkey.
  destruct (signingPrivateKey_inv _ _ _ _ _ _ Hkey) as (-> & Hsrc).
  destruct r as [privateKey|e]; [|done].
  destruct Hsrc as [(keyBytes & Hsrc & Hpem)|(x & _ & _ & [=])].
  unfold ret, call, bind.
  destruct (Sig.helper_NewUpdateRequest l _ _) as [e|req] eqn:Hreq; simpl; [done|].
  destruct (client_Post w _ (fileIndexBaseURL c) req) as [e|resp] eqn:Hpost; simpl; [done|].
  destruct (Z.eqb_spec (StatusCode resp) http_StatusOK) as [Hcode|]; simpl; [|done].
  intros [= <-].
  exists suffix, patchStr, updatePatch, keyBytes, privateKey, req, resp.
  rewrite <- !app_assoc in *. by split_and!.
Qed.

Lemma Sig_updateIndexFile_ok_witness :
  exists (suffix : string) (req : bytes),
    getUniqueSuffix "http://h/file/file:idx:ABC123" = Ok suffix
    /\ [EvReadFile "signing.key"; EvNewUpdateRequest "ABC123";
        EvPost "http://h/file" (bytes_of_string "ABC123")]
       = [] ++ key_events world_ok
                 (validated (sample_command "a.json" true "signing.key" EmptyString))
            ++ [EvNewUpdateRequest suffix; EvPost "http://h/file" req].
Proof.
  destruct (Sig_updateIndexFile_ok world_ok (sample_sig_lib newPatch_accepts)
              (validated (sample_command "a.json" true "signing.key" EmptyString))
              sample_index sample_uploaded []
              [EvReadFile "signing.key"; EvNewUpdateRequest "ABC123";
               EvPost "http://h/file" (bytes_of_string "ABC123")]
              eq_refl)
    as (suffix & patchStr & updatePatch & keyBytes & privateKey & req & resp
        & Hs & _ & _ & _ & _ & _ & _ & _ & Htr).
  exists suffix, req. split; [exact Hs | exact Htr].
Defined.

(** X17. The signing key is parsed only at the update of the index
    document, after the suffix and the patch were accepted.  A key that
    cannot be obtained (the key file cannot be read, no PEM block is found
    in the key, or the block is no EC private key) ends the update with
    that error; the only event is the reading of the key file, if there is
    one: no request is built and nothing is posted. *)
Theorem Sig_update_key_failure (w : World) (l : Sig.Lib) (c : command)
    (fileIdx : model_FileIndex) (fs : files) (tr tr1 : Trace)
    (suffix patchStr : string) (updatePatch : Sig.patch_Patch l) (e : error) :
  getUniqueSuffix (fileIndexURL c) = Ok suffix ->
  Sig.getUpdatePatch w fileIdx fs = Ok patchStr ->
  Sig.patch_NewJSONPatch l patchStr = inr updatePatch ->
  Sig.signingPrivateKey w l c tr = (tr1, Err e) ->
  Sig.updateIndexFile w l c fileIdx fs tr = (tr ++ key_events w c, Err e)
  /\ (e = errPrivateKeyNotFoundInPEM
      \/ exists x, e = errExternal x).
Proof.
  intros Hs Hp Hnew Hkey.
  destruct (signingPrivateKey_inv _ _ _ _ _ _ Hkey) as (-> & Hsrc).
  split.
  - unfold Sig.updateIndexFile, updateIndexFile, Sig.getUpdateRequest, Sig.updateKeySigner.
    unfold bind, lift. by rewrite Hp, Hs, Hnew, Hkey.
  - destruct Hsrc as [(keyBytes & _ & Hpem)|(x & _ & _ & [= ->])]; [|eauto].
    unfold Sig.privateKeyFromPEM in Hpem.
    destruct (Sig.pem_Decode l keyBytes) as [blk|]; [|left; congruence].
    destruct (Sig.x509_ParseECPrivateKey l blk) as [x|k]; simpl in Hpem; [|done].
    right. exists x. congruence.
Qed.

Lemma Sig_update_key_failure_witness :
  Sig.updateIndexFile world_ok sample_sig_lib_no_pem
    (validated (sample_command "a.json" true EmptyString "KEY"))
    sample_index sample_uploaded []
  = ([], Err errPrivateKeyNotFoundInPEM).
Proof.
  refine (proj1 (Sig_update_key_failure world_ok sample_sig_lib_no_pem
                   (validated (sample_command "a.json" true EmptyString "KEY"))
                   sample_index sample_uploaded [] [] "ABC123"
                   "/fileIndex/mappings/a.json" 26%nat errPrivateKeyNotFoundInPEM
                   _ _ _ _)); reflexivity.
Defined.

(** ** The events of a run *)

Lemma emits_ret {A : Type} (Q : Event -> Prop) (a : A) : emits Q (ret a).
Proof. intros tr. exists []. by rewrite app_nil_r. Qed.

Lemma emits_fail {A : Type} (Q : Event -> Prop) (e : error) : emits Q (@fail A e).
Proof. intros tr. exists []. by rewrite app_nil_r. Qed.

Lemma emits_lift {A : Type} (Q : Event -> Prop) (r : result A) : emits Q (lift r).
Proof. intros tr. exists []. by rewrite app_nil_r. Qed.

Lemma emits_call {A : Type} (Q : Event -> Prop) (ev : Event) (answer : Trace -> ext A) :
  Q ev -> emits Q (call ev answer).
Proof. intros H tr. exists [ev]. split; [done|]. by constructor. Qed.

Lemma emits_call_err (Q : Event -> Prop) (ev : Event)
    (answer : Trace -> option ext_error) :
  Q ev -> emits Q (call_err ev answer).
Proof. intros H tr. exists [ev]. split; [done|]. by constructor. Qed.

Lemma emits_bind {A B : Type} (Q : Event -> Prop) (m : M A) (k : A -> M B) :
  emits Q m -> (forall a, emits Q (k a)) -> emits Q (bind m k).
Proof.
  intros Hm Hk tr. unfold bind.
  destruct (Hm tr) as (evs1 & H1 & HQ1).
  destruct (m tr) as [tr1 [a|e]]; simpl in H1; subst tr1.
  - destruct (Hk a (tr ++ evs1)) as (evs2 & H2 & HQ2).
    exists (evs1 ++ evs2). rewrite H2, app_assoc. split; [done|]. by apply Forall_app.
  - by exists evs1.
Qed.

Lemma emits_getFileInfo (w : World) (Q : Event -> Prop) (path : string) :
  (forall p, Q (EvReadFile p)) -> emits Q (getFileInfo w path).
Proof.
  intros HQ. unfold getFileInfo.
  apply emits_bind; [apply emits_lift|]. intros ct.
  apply emits_bind; [by apply emits_call|]. intros content. apply emits_ret.
Qed.

Lemma emits_getFiles_loop (w : World) (Q : Event -> Prop) (paths : list string)
    (f : files) :
  (forall p, Q (EvReadFile p)) -> emits Q (getFiles_loop w paths f).
Proof.
  intros HQ. revert f. induction paths as [|p paths IH]; intros f; simpl.
  - apply emits_ret.
  - apply emits_bind; [by apply emits_getFileInfo|]. intros fi. apply IH.
Qed.

Lemma emits_confirmUpload (w : World) (Q : Event -> Prop) (url : string) (fs : files) :
  (forall s, Q (EvFprintln s)) -> Q EvPrompt -> emits Q (confirmUpload w url fs).
Proof.
  intros HQ1 HQ2. unfold confirmUpload.
  apply emits_bind; [by apply emits_call_err|]. intros _ tr.
  exists [EvPrompt]. split; [done|]. by constructor.
Qed.

Lemma emits_upload (w : World) (Q : Event -> Prop) (url contentType : string)
    (fileBytes : bytes) :
  (forall b, Q (EvPost url b)) -> emits Q (upload w url contentType fileBytes).
Proof.
  intros HQ. unfold upload.
  apply emits_bind; [apply emits_lift|]. intros reqBytes.
  apply emits_bind; [by apply emits_call|]. intros resp.
  destruct (negb _); [apply emits_fail|].
  apply emits_bind; [apply emits_lift|]. intros id. apply emits_ret.
Qed.

Lemma emits_upload_loop (w : World) (Q : Event -> Prop) (c : command)
    (idxs : list nat) (f : files) :
  (forall b, Q (EvPost (url c) b)) -> emits Q (upload_loop w c idxs f).
Proof.
  intros HQ. revert f. induction idxs as [|i idxs IH]; intros f; simpl.
  - apply emits_ret.
  - destruct (f !! i) as [file|]; [|apply emits_ret].
    apply emits_bind; [by apply emits_upload|]. intros id. apply IH.
Qed.

Lemma emits_updateIndexFile {P : Type} (w : World) (Q : Event -> Prop)
    (getUpdatePatch : model_FileIndex -> files -> result P)
    (getUpdateRequest : command -> P -> M bytes)
    (c : command) (fileIdx : model_FileIndex) (fs : files) :
  (forall patch, emits Q (getUpdateRequest c patch)) ->
  (forall b, Q (EvPost (fileIndexBaseURL c) b)) ->
  emits Q (updateIndexFile w getUpdatePatch getUpdateRequest c fileIdx fs).
Proof.
  intros Hreq HQ. unfold updateIndexFile.
  apply emits_bind; [apply emits_lift|]. intros patch.
  apply emits_bind; [apply Hreq|]. intros req.
  apply emits_bind; [by apply emits_call|]. intros resp.
  destruct (negb _); [apply emits_fail|apply emits_ret].
Qed.

Lemma emits_OTP_getUpdateRequest (l : OTP.Lib) (Q : Event -> Prop) (c : command)
    (patch : OTP.jsonpatch_Patch l) :
  (forall s, Q (EvNewUpdateRequest s)) -> emits Q (OTP.getUpdateRequest l c patch).
Proof.
  intros HQ. unfold OTP.getUpdateRequest.
  apply emits_bind; [apply emits_lift|]. intros suffix. by apply emits_call.
Qed.

Lemma emits_Sig_getUpdateRequest (w : World) (l : Sig.Lib) (Q : Event -> Prop)
    (c : command) (patchStr : string) :
  (forall s, Q (EvNewUpdateRequest s)) -> (forall p, Q (EvReadFile p)) ->
  emits Q (Sig.getUpdateRequest w l c patchStr).
Proof.
  intros HQ1 HQ2. unfold Sig.getUpdateRequest.
  apply emits_bind; [apply emits_lift|]. intros suffix.
  apply emits_bind; [apply emits_lift|]. intros updatePatch.
  apply emits_bind; [|intros signer; by apply emits_call].
  unfold Sig.updateKeySigner.
  apply emits_bind; [|intros k; apply emits_ret].
  unfold Sig.signingPrivateKey, Sig.privateKeyFromFile.
  destruct (negb _); [|apply emits_lift].
  apply emits_bind; [by apply emits_call|]. intros keyBytes. apply emits_lift.
Qed.

(** What a run adds to the trace after the GET of the index document. *)
Lemma run_after_fetch (w : World)
    (upd : command -> model_FileIndex -> files -> M unit)
    (Q : Event -> Prop) (c : command) (tr : Trace) :
  (forall p, Q (EvReadFile p)) ->
  (noPrompt c = false -> forall s, Q (EvFprintln s)) ->
  (noPrompt c = false -> Q EvPrompt) ->
  (forall b, Q (EvPost (url c) b)) ->
  (forall s, Q (EvFprint s)) ->
  (forall fileIdx fs, emits Q (upd c fileIdx fs)) ->
  exists evs, fst (run w upd c tr) = tr ++ EvGet (fileIndexURL c) :: evs
    /\ Forall Q evs.
Proof.
  intros Hread Hprintln Hprompt Hpost Hprint Hupd.
  unfold run, bind at 1.
  pose proof (getFileIndex_trace w c tr) as Htr.
  destruct (getFileIndex w c tr) as [tr1 [fileIdx|e]]; simpl in Htr; subst tr1;
    [|by exists []].
  assert (forall f, emits Q (run_upload w upd c fileIdx f)) as Hrest.
  { intros f. unfold run_upload, uploadFiles.
    apply emits_bind; [by apply emits_upload_loop|]. intros f'.
    apply emits_bind; [apply Hupd|]. intros _. by apply emits_call_err. }
  assert (emits Q (f <- getFiles w c ;;
                   if negb (noPrompt c)
                   then confirmed <- confirmUpload w (url c) f ;;
                        if negb confirmed
                        then call_err (EvFprintln msgAborted)
                               (fun tr => Fprintln w tr msgAborted)
                        else run_upload w upd c fileIdx f
                   else run_upload w upd c fileIdx f)) as Hemits.
  { apply emits_bind; [by apply emits_getFiles_loop|]. intros f.
    destruct (noPrompt c) eqn:Hnp; simpl; [apply Hrest|].
    apply emits_bind; [apply emits_confirmUpload; auto|]. intros confirmed.
    destruct confirmed; simpl; [apply Hrest|]. apply emits_call_err. auto. }
  destruct (Hemits (tr ++ [EvGet (fileIndexURL c)])) as (evs & Hevs & HQ).
  exists evs. rewrite Hevs, <- app_assoc. done.
Qed.

(** X18. In a run of either variant the index document is fetched
    once, first, and never again.  After that GET, every POST goes to the
    upload URL or to the base URL of the index document, and the user is
    prompted, and the prompt or the notice of an aborted operation is
    written, only when the confirmation is not suppressed. *)
Theorem run_events (w : World) (lo : OTP.Lib) (ls : Sig.Lib) (c : command) (tr : Trace) :
  (exists evs, fst (OTP.run w lo c tr) = tr ++ EvGet (fileIndexURL c) :: evs
     /\ Forall (allowed_after_fetch c) evs)
  /\ (exists evs, fst (Sig.run w ls c tr) = tr ++ EvGet (fileIndexURL c) :: evs
        /\ Forall (allowed_after_fetch c) evs).
Proof.
  split.
  - apply run_after_fetch; simpl; auto.
    intros fileIdx fs. apply emits_updateIndexFile; simpl; auto.
    intros patch. by apply emits_OTP_getUpdateRequest.
  - apply run_after_fetch; simpl; auto.
    intros fileIdx fs. apply emits_updateIndexFile; simpl; auto.
    intros patchStr. by apply emits_Sig_getUpdateRequest.
Qed.

(** ** The run as a whole *)

Lemma confirmUpload_inv (w : World) (url : string) (fs : files) (tr tr' : Trace)
    (r : result bool) :
  confirmUpload w url fs tr = (tr', r) ->
  (exists x, Fprintln w tr (confirmPrompt w url fs) = Some x
     /\ tr' = tr ++ [EvFprintln (confirmPrompt w url fs)]
     /\ r = Err (errExternal x))
  \/ (Fprintln w tr (confirmPrompt w url fs) = None
      /\ tr' = tr ++ [EvFprintln (confirmPrompt w url fs); EvPrompt]
      /\ r = Ok (String.eqb
                   (strings_ToLower (unicode_lower w)
                      (Prompt w (tr ++ [EvFprintln (confirmPrompt w url fs)]))) "y")).
Proof.
  unfold confirmUpload, bind, call_err.
  destruct (Fprintln w tr (confirmPrompt w url fs)) as [x|].
  - intros [= <- <-]. left. eauto.
  - rewrite <- app_assoc. intros [= <- <-]. by right.
Qed.

(** X19. When the prompt of the confirmation cannot be written, the
    run ends with that error: the user is not asked, no file is uploaded
    and the index document is not updated. *)
Theorem run_prompt_not_written (w : World)
    (upd : command -> model_FileIndex -> files -> M unit)
    (c : command) (tr tr1 tr2 : Trace) (fileIdx : model_FileIndex) (f : files)
    (x : ext_error) :
  getFileIndex w c tr = (tr1, Ok fileIdx) ->
  getFiles w c tr1 = (tr2, Ok f) ->
  noPrompt c = false ->
  Fprintln w tr2 (confirmPrompt w (url c) f) = Some x ->
  run w upd c tr =
    (tr ++ EvGet (fileIndexURL c)
        :: map (read_event w) (Split_byte (file c) ";")
        ++ [EvFprintln (confirmPrompt w (url c) f)],
     Err (errExternal x)).
Proof.
  intros Hidx Hf Hnp Hprint.
  destruct (getFileIndex_ok _ _ _ _ _ Hidx) as [-> _].
  unfold getFiles in Hf.
  destruct (getFiles_loop_ok _ _ _ _ _ _ Hf) as (new & _ & _ & -> & _).
  unfold run, bind. rewrite Hidx. unfold getFiles. rewrite Hf, Hnp. simpl.
  unfold confirmUpload, bind, call_err. rewrite Hprint.
  by rewrite <- !app_assoc.
Qed.

Lemma run_prompt_not_written_witness :
  OTP.run world_terminal_closed (sample_otp_lib decode_accepts)
    (validated (sample_command "a.json;b.png;c.json" false EmptyString EmptyString)) []
  = ([] ++ EvGet "http://h/file/file:idx:ABC123"
        :: map (read_event world_terminal_closed) (Split_byte "a.json;b.png;c.json" ";")
        ++ [EvFprintln (confirmPrompt world_terminal_closed "http://h/content" sample_loaded)],
     Err (errExternal "terminal closed")).
Proof.
  refine (run_prompt_not_written world_terminal_closed _
            (validated (sample_command "a.json;b.png;c.json" false EmptyString EmptyString))
            [] [EvGet "http://h/file/file:idx:ABC123"]
            [EvGet "http://h/file/file:idx:ABC123";
             EvReadFile "a.json"; EvReadFile "b.png"; EvReadFile "c.json"]
            sample_index sample_loaded "terminal closed" _ _ _ _); reflexivity.
Defined.

(** A run that ends without error either was declined by the user or
    went through the uploads, the update of the index and the printing of
    the result. *)
Lemma run_ok_inv (w : World)
    (upd : command -> model_FileIndex -> files -> M unit)
    (c : command) (tr tr' : Trace) :
  run w upd c tr = (tr', Ok tt) ->
  exists (fileIdx : model_FileIndex) (f : files),
    let tr2 := tr ++ EvGet (fileIndexURL c)
                 :: map (read_event w) (Split_byte (file c) ";") in
    let tr3 := tr2 ++ confirm_events w c f in
    getFileIndex w c tr = (tr ++ [EvGet (fileIndexURL c)], Ok fileIdx)
    /\ getFiles w c (tr ++ [EvGet (fileIndexURL c)]) = (tr2, Ok f)
    /\ ((noPrompt c = false
         /\ confirmUpload w (url c) f tr2 = (tr3, Ok false)
         /\ tr' = tr3 ++ [EvFprintln msgAborted])
        \/ (reaches_upload w c tr fileIdx f tr3
            /\ exists (ids : list string) (posts tr5 : Trace),
                 uploaded w c tr3 f ids (tr3 ++ posts)
                 /\ Forall2 (is_upload_post w c) f posts
                 /\ upd c fileIdx (zip_with set_ID ids f) (tr3 ++ posts) = (tr5, Ok tt)
                 /\ Fprint w tr5 (files_String w (zip_with set_ID ids f)) = None
                 /\ tr' = tr5 ++ [EvFprint (files_String w (zip_with set_ID ids f))])).
Proof.
  intros Hrun.
  assert (forall fileIdx f tr3,
            run_upload w upd c fileIdx f tr3 = (tr', Ok tt) ->
            exists (ids : list string) (posts tr5 : Trace),
              uploaded w c tr3 f ids (tr3 ++ posts)
              /\ Forall2 (is_upload_post w c) f posts
              /\ upd c fileIdx (zip_with set_ID ids f) (tr3 ++ posts) = (tr5, Ok tt)
              /\ Fprint w tr5 (files_String w (zip_with set_ID ids f)) = None
              /\ tr' = tr5 ++ [EvFprint (files_String w (zip_with set_ID ids f))])
    as Hupload.
  { intros fileIdx f tr3. unfold run_upload, bind at 1.
    rewrite uploadFiles_each.
    destruct (upload_each w c f tr3) as [tr4 [f'|e]] eqn:Heach; [|done].
    destruct (upload_each_ok _ _ _ _ _ _ Heach) as (ids & Hids & ->).
    destruct (uploaded_trace _ _ _ _ _ _ Hids) as (_ & posts & -> & Hposts).
    unfold bind, call_err.
    destruct (upd c fileIdx _ _) as [tr5 [[]|e]] eqn:Hupd; [|done].
    destruct (Fprint w tr5 _) eqn:Hprint; [done|]. intros [= <-].
    by exists ids, posts, tr5. }
  unfold run, bind at 1 in Hrun.
  destruct (getFileIndex w c tr) as [tr1 [fileIdx|e]] eqn:Hidx; [|done].
  destruct (getFileIndex_ok _ _ _ _ _ Hidx) as [-> _].
  unfold bind at 1 in Hrun.
  destruct (getFiles w c _) as [tr2 [f|e]] eqn:Hf; [|done].
  pose proof Hf as Hloop. unfold getFiles in Hloop.
  destruct (getFiles_loop_ok _ _ _ _ _ _ Hloop) as (new & _ & _ & -> & _).
  rewrite <- app_assoc in Hf, Hrun. simpl in Hf, Hrun.
  exists fileIdx, f. cbv zeta. split; [done|]. split; [by rewrite <- app_assoc|].
  unfold confirm_events. destruct (noPrompt c) eqn:Hnp; simpl in Hrun.
  - right. rewrite app_nil_r. split; [|by apply Hupload].
    eexists _, _. split; [exact Hidx|]. split; [exact Hf|]. by left.
  - unfold bind at 1 in Hrun.
    destruct (confirmUpload w (url c) f _) as [tr3 r] eqn:Hconfirm.
    destruct (confirmUpload_inv _ _ _ _ _ _ Hconfirm)
      as [(x & _ & _ & ->)|(_ & -> & ->)]; [done|].
    destruct (String.eqb _ "y") eqn:Hans; simpl in Hrun.
    + right. split; [|by apply Hupload].
      eexists _, _. split; [exact Hidx|]. split; [exact Hf|].
      by right.
    + left. split; [done|]. split; [done|].
      unfold call_err in Hrun. destruct (Fprintln w _ msgAborted); [done|].
      by injection Hrun as <-.
Qed.

Lemma OTP_update_when_ok (w : World) (l : OTP.Lib) (c : command)
    (fileIdx : model_FileIndex) (fs : files) (tr tr' : Trace) :
  OTP.updateIndexFile w l c fileIdx fs tr = (tr', Ok tt) ->
  exists (suffix : string) (patch : OTP.jsonpatch_Patch l) (req : bytes)
         (resp : HTTPResponse),
    getUniqueSuffix (fileIndexURL c) = Ok suffix
    /\ OTP.getUpdatePatch w l fileIdx fs = Ok patch
    /\ OTP.helper_NewUpdateRequest l tr
         {| OTP.DidUniqueSuffix := suffix;
            OTP.UpdateOTP :=
              OTP.docutil_EncodeToString l (bytes_of_string (fileIndexUpdateOTP c));
            OTP.NextUpdateOTP :=
              OTP.docutil_EncodeToString l (bytes_of_string (fileIndexNextUpdateOTP c));
            OTP.Patch_ := patch;
            OTP.MultihashCode := 18 |} = inr req
    /\ client_Post w (tr ++ [EvNewUpdateRequest suffix]) (fileIndexBaseURL c) req = inr resp
    /\ StatusCode resp = 200
    /\ tr' = tr ++ [EvNewUpdateRequest suffix; EvPost (fileIndexBaseURL c) req].
Proof.
  unfold OTP.updateIndexFile, updateIndexFile, OTP.getUpdateRequest. unfold_M.
  destruct (OTP.getUpdatePatch w l fileIdx fs) as [patch|e]; [|done].
  destruct (getUniqueSuffix (fileIndexURL c)) as [suffix|e]; [|done].
  simpl.
  destruct (OTP.helper_NewUpdateRequest l tr _) as [e|req] eqn:Hreq; simpl; [done|].
  destruct (client_Post w _ (fileIndexBaseURL c) req) as [e|resp] eqn:Hpost; simpl; [done|].
  destruct (Z.eqb_spec (StatusCode resp) http_StatusOK) as [Hcode|]; simpl; [|done].
  intros [= <-]. exists suffix, patch, req, resp.
  rewrite <- app_assoc. by split_and!.
Qed.

Lemma Sig_update_when_ok (w : World) (l : Sig.Lib) (c : command)
    (fileIdx : model_FileIndex) (fs : files) (tr tr' : Trace) :
  Sig.updateIndexFile w l c fileIdx fs tr = (tr', Ok tt) ->
  exists (suffix patchStr : string) (updatePatch : Sig.patch_Patch l)
         (keyBytes : bytes) (privateKey : Sig.ecdsa_PrivateKey l)
         (req : bytes) (resp : HTTPResponse),
    getUniqueSuffix (fileIndexURL c) = Ok suffix
    /\ Sig.getUpdatePatch w fileIdx fs = Ok patchStr
    /\ Sig.patch_NewJSONPatch l patchStr = inr updatePatch
    /\ key_source w c tr keyBytes
    /\ Sig.privateKeyFromPEM l keyBytes = Ok privateKey
    /\ Sig.helper_NewUpdateRequest l (tr ++ key_events w c)
         {| Sig.DidUniqueSuffix := suffix;
            Sig.UpdateRevealValue := bytes_of_string (fileIndexUpdateOTP c);
            Sig.NextUpdateRevealValue := bytes_of_string (fileIndexNextUpdateOTP c);
            Sig.Patch_ := updatePatch;
            Sig.MultihashCode := 18;
            Sig.Signer_ :=
              Sig.ecsigner_New l privateKey "ES256" (Sig.model_UpdateKeyID l) |} = inr req
    /\ client_Post w (tr ++ key_events w c ++ [EvNewUpdateRequest suffix])
         (fileIndexBaseURL c) req = inr resp
    /\ StatusCode resp = 200
    /\ tr' = tr ++ key_events w c
               ++ [EvNewUpdateRequest suffix; EvPost (fileIndexBaseURL c) req].
Proof.
  unfold Sig.updateIndexFile, updateIndexFile, Sig.getUpdateRequest, Sig.updateKeySigner.
  unfold bind at 1 2 3 4 5 6. unfold lift.
  destruct (Sig.getUpdatePatch w fileIdx fs) as [patchStr|e]; [|done].
  destruct (getUniqueSuffix (fileIndexURL c)) as [suffix|e]; [|done].
  destruct (Sig.patch_NewJSONPatch l patchStr) as [e|updatePatch] eqn:Hnew; simpl; [done|].
  destruct (Sig.signingPrivateKey w l c tr) as [tr1 r] eqn:Hkey.
  destruct (signingPrivateKey_inv _ _ _ _ _ _ Hkey) as (-> & Hsrc).
  destruct r as [privateKey|e]; [|done].
  destruct Hsrc as [(keyBytes & Hsrc & Hpem)|(x & _ & _ & [=])].
  unfold ret, call, bind.
  destruct (Sig.helper_NewUpdateRequest l _ _) as [e|req] eqn:Hreq; simpl; [done|].
  destruct (client_Post w _ (fileIndexBaseURL c) req) as [e|resp] eqn:Hpost; simpl; [done|].
  destruct (Z.eqb_spec (StatusCode resp) http_StatusOK) as [Hcode|]; simpl; [|done].
  intros [= <-].
  exists suffix, patchStr, updatePatch, keyBytes, privateKey, req, resp.
  rewrite <- !app_assoc in *. by split_and!.
Qed.

(** X20. A run of the password variant that ends without error went
    one of two ways.  Either the user declined: the index document was
    fetched, the files were read, the prompt was answered with something
    other than [y] or [Y], and the notice of the aborted operation is the
    last event.  Or the run was completed, and its events are, in this
    order: the GET of the index document; the reading of every file; the
    confirmation, if it is not suppressed; one POST per file to the upload
    URL, in the order of the files; the building of one update request;
    one POST of that request, as [helper.NewUpdateRequest] returned it, to
    the base URL of the index document, answered with the status 200; and
    the printing of the files with the IDs that the uploads returned.  The
    request is built from the unique suffix of the URL of the index
    document, the two passwords, each encoded, the code 18, and the patch
    that [getUpdatePatch] makes from the index as it was fetched at the
    beginning and the files with those IDs. *)
Theorem OTP_run_ok (w : World) (l : OTP.Lib) (c : command) (tr tr' : Trace) :
  OTP.run w l c tr = (tr', Ok tt) ->
  exists (fileIdx : model_FileIndex) (f : files),
    let before := tr ++ EvGet (fileIndexURL c)
                    :: map (read_event w) (Split_byte (file c) ";")
                    ++ confirm_events w c f in
    (noPrompt c = false
     /\ confirmUpload w (url c) f
          (tr ++ EvGet (fileIndexURL c) :: map (read_event w) (Split_byte (file c) ";"))
        = (before, Ok false)
     /\ tr' = before ++ [EvFprintln msgAborted])
    \/ (reaches_upload w c tr fileIdx f before
        /\ exists (ids : list string) (posts : Trace) (suffix : string)
                  (patch : OTP.jsonpatch_Patch l) (req : bytes) (resp : HTTPResponse),
             uploaded w c before f ids (before ++ posts)
             /\ Forall2 (is_upload_post w c) f posts
             /\ map ID (zip_with set_ID ids f) = ids
             /\ getUniqueSuffix (fileIndexURL c) = Ok suffix
             /\ OTP.getUpdatePatch w l fileIdx (zip_with set_ID ids f) = Ok patch
             /\ OTP.helper_NewUpdateRequest l (before ++ posts)
                  {| OTP.DidUniqueSuffix := suffix;
                     OTP.UpdateOTP :=
                       OTP.docutil_EncodeToString l
                         (bytes_of_string (fileIndexUpdateOTP c));
                     OTP.NextUpdateOTP :=
                       OTP.docutil_EncodeToString l
                         (bytes_of_string (fileIndexNextUpdateOTP c));
                     OTP.Patch_ := patch;
                     OTP.MultihashCode := 18 |} = inr req
             /\ client_Post w ((before ++ posts) ++ [EvNewUpdateRequest suffix])
                  (fileIndexBaseURL c) req = inr resp
             /\ StatusCode resp = 200
             /\ Fprint w ((before ++ posts)
                            ++ [EvNewUpdateRequest suffix; EvPost (fileIndexBaseURL c) req])
                  (files_String w (zip_with set_ID ids f)) = None
             /\ tr' = before ++ posts
                        ++ [EvNewUpdateRequest suffix;
                            EvPost (fileIndexBaseURL c) req;
                            EvFprint (files_String w (zip_with set_ID ids f))]).
Proof.
  intros Hrun. destruct (run_ok_inv _ _ _ _ _ Hrun) as (fileIdx & f & Hinv).
  cbv zeta in Hinv. destruct Hinv as (_ & _ & Hcase).
  exists fileIdx, f. cbv zeta.
  replace (tr ++ EvGet (fileIndexURL c)
              :: map (read_event w) (Split_byte (file c) ";") ++ confirm_events w c f)
    with ((tr ++ EvGet (fileIndexURL c) :: map (read_event w) (Split_byte (file c) ";"))
            ++ confirm_events w c f)
    by (by rewrite <- app_assoc).
  destruct Hcase
    as [Hdeclined|(Hreach & ids & posts & tr5 & Hup & Hposts & Hupd & Hprint & ->)];
    [by left|right].
  split; [done|].
  destruct (uploaded_trace _ _ _ _ _ _ Hup) as (Hlen & _).
  destruct (zip_with_set_ID_fields ids f Hlen) as (HID & _).
  destruct (OTP_update_when_ok _ _ _ _ _ _ _ Hupd)
    as (suffix & patch & req & resp & Hs & Hpatch & Hreq & Hpost & Hcode & ->).
  exists ids, posts, suffix, patch, req, resp. split_and!; try done.
  by rewrite <- !app_assoc.
Qed.

(** X21. A run of the signing variant that ends without error went one
    of the same two ways: declined, or completed with the same events as
    a completed run of the password variant, in the same order, and with
    the reading of the key file, if the key is in a file, after the last
    upload and before the building of the update request.  The request
    that is posted, answered with the status 200, is the one that
    [helper.NewUpdateRequest] returned for the unique suffix of the URL of
    the index document, the two passwords as they are, the code 18, a
    signer for the key that was parsed, and the typed patch that
    [patch.NewJSONPatch] made of what [getUpdatePatch] returns for the
    index as it was fetched at the beginning and the files with the IDs
    that the uploads returned. *)
Theorem Sig_run_ok (w : World) (l : Sig.Lib) (c : command) (tr tr' : Trace) :
  Sig.run w l c tr = (tr', Ok tt) ->
  exists (fileIdx : model_FileIndex) (f : files),
    let before := tr ++ EvGet (fileIndexURL c)
                    :: map (read_event w) (Split_byte (file c) ";")
                    ++ confirm_events w c f in
    (noPrompt c = false
     /\ confirmUpload w (url c) f
          (tr ++ EvGet (fileIndexURL c) :: map (read_event w) (Split_byte (file c) ";"))
        = (before, Ok false)
     /\ tr' = before ++ [EvFprintln msgAborted])
    \/ (reaches_upload w c tr fileIdx f before
        /\ exists (ids : list string) (posts : Trace) (suffix patchStr : string)
                  (updatePatch : Sig.patch_Patch l) (keyBytes : bytes)
                  (privateKey : Sig.ecdsa_PrivateKey l)
                  (req : bytes) (resp : HTTPResponse),
             uploaded w c before f ids (before ++ posts)
             /\ Forall2 (is_upload_post w c) f posts
             /\ map ID (zip_with set_ID ids f) = ids
             /\ getUniqueSuffix (fileIndexURL c) = Ok suffix
             /\ Sig.getUpdatePatch w fileIdx (zip_with set_ID ids f) = Ok patchStr
             /\ Sig.patch_NewJSONPatch l patchStr = inr updatePatch
             /\ key_source w c (before ++ posts) keyBytes
             /\ Sig.privateKeyFromPEM l keyBytes = Ok privateKey
             /\ Sig.helper_NewUpdateRequest l ((before ++ posts) ++ key_events w c)
                  {| Sig.DidUniqueSuffix := suffix;
                     Sig.UpdateRevealValue := bytes_of_string (fileIndexUpdateOTP c);
                     Sig.NextUpdateRevealValue :=
                       bytes_of_string (fileIndexNextUpdateOTP c);
                     Sig.Patch_ := updatePatch;
                     Sig.MultihashCode := 18;
                     Sig.Signer_ :=
                       Sig.ecsigner_New l privateKey "ES256" (Sig.model_UpdateKeyID l) |}
                = inr req
             /\ client_Post w
                  ((before ++ posts) ++ key_events w c ++ [EvNewUpdateRequest suffix])
                  (fileIndexBaseURL c) req = inr resp
             /\ StatusCode resp = 200
             /\ Fprint w ((before ++ posts) ++ key_events w c
                            ++ [EvNewUpdateRequest suffix; EvPost (fileIndexBaseURL c) req])
                  (files_String w (zip_with set_ID ids f)) = None
             /\ tr' = before ++ posts ++ key_events w c
                        ++ [EvNewUpdateRequest suffix;
                            EvPost (fileIndexBaseURL c) req;
                            EvFprint (files_String w (zip_with set_ID ids f))]).
Proof.
  intros Hrun. destruct (run_ok_inv _ _ _ _ _ Hrun) as (fileIdx & f & Hinv).
  cbv zeta in Hinv. destruct Hinv as (_ & _ & Hcase).
  exists fileIdx, f. cbv zeta.
  replace (tr ++ EvGet (fileIndexURL c)
              :: map (read_event w) (Split_byte (file c) ";") ++ confirm_events w c f)
    with ((tr ++ EvGet (fileIndexURL c) :: map (read_event w) (Split_byte (file c) ";"))
            ++ confirm_events w c f)
    by (by rewrite <- app_assoc).
  destruct Hcase
    as [Hdeclined|(Hreach & ids & posts & tr5 & Hup & Hposts & Hupd & Hprint & ->)];
    [by left|right].
  split; [done|].
  destruct (uploaded_trace _ _ _ _ _ _ Hup) as (Hlen & _).
  destruct (zip_with_set_ID_fields ids f Hlen) as (HID & _).
  destruct (Sig_update_when_ok _ _ _ _ _ _ _ Hupd)
    as (suffix & patchStr & updatePatch & keyBytes & privateKey & req & resp
        & Hs & Hpatch & Hnew & Hsrc & Hpem & Hreq & Hpost & Hcode & ->).
  exists ids, posts, suffix, patchStr, updatePatch, keyBytes, privateKey, req, resp.
  split_and!; try done.
  by rewrite <- !app_assoc.
Qed.

Lemma OTP_run_ok_witness :
  exists (f : files) (ids : list string) (posts : Trace) (suffix : string) (req : bytes),
    Forall2 (is_upload_post world_ok otp_command) f posts
    /\ getUniqueSuffix (fileIndexURL otp_command) = Ok suffix
    /\ [EvGet "http://h/file/file:idx:ABC123"; EvReadFile "a.json";
        EvPost "http://h/content" (bytes_of_string "content of a.json");
        EvNewUpdateRequest "ABC123";
        EvPost "http://h/file" (bytes_of_string "ABC123");
        EvFprint "id of content of a.json"]
       = ([] ++ EvGet (fileIndexURL otp_command)
             :: map (read_event world_ok) (Split_byte (file otp_command) ";")
             ++ confirm_events world_ok otp_command f)
           ++ posts
           ++ [EvNewUpdateRequest suffix;
               EvPost (fileIndexBaseURL otp_command) req;
               EvFprint (files_String world_ok (zip_with set_ID ids f))].
Proof.
  destruct (OTP_run_ok world_ok (sample_otp_lib decode_accepts) otp_command []
              [EvGet "http://h/file/file:idx:ABC123"; EvReadFile "a.json";
               EvPost "http://h/content" (bytes_of_string "content of a.json");
               EvNewUpdateRequest "ABC123";
               EvPost "http://h/file" (bytes_of_string "ABC123");
               EvFprint "id of content of a.json"]
              eq_refl)
    as (fileIdx & f
        & [(Hnp & _)
          |(_ & ids & posts & suffix & patch & req & resp
            & _ & Hposts & _ & Hs & _ & _ & _ & _ & _ & Htr)]).
  - discriminate Hnp.
  - exists f, ids, posts, suffix, req. split; [exact Hposts|]. split; [exact Hs|exact Htr].
Defined.

Lemma Sig_run_ok_witness :
  exists (f : files) (ids : list string) (posts : Trace) (suffix : string) (req : bytes),
    Forall2 (is_upload_post world_ok sig_command) f posts
    /\ getUniqueSuffix (fileIndexURL sig_command) = Ok suffix
    /\ [EvGet "http://h/file/file:idx:ABC123"; EvReadFile "a.json";
        EvPost "http://h/content" (bytes_of_string "content of a.json");
        EvReadFile "signing.key";
        EvNewUpdateRequest "ABC123";
        EvPost "http://h/file" (bytes_of_string "ABC123");
        EvFprint "id of content of a.json"]
       = ([] ++ EvGet (fileIndexURL sig_command)
             :: map (read_event world_ok) (Split_byte (file sig_command) ";")
             ++ confirm_events world_ok sig_command f)
           ++ posts ++ key_events world_ok sig_command
           ++ [EvNewUpdateRequest suffix;
               EvPost (fileIndexBaseURL sig_command) req;
               EvFprint (files_String world_ok (zip_with set_ID ids f))].
Proof.
  destruct (Sig_run_ok world_ok (sample_sig_lib newPatch_accepts) sig_command []
              [EvGet "http://h/file/file:idx:ABC123"; EvReadFile "a.json";
               EvPost "http://h/content" (bytes_of_string "content of a.json");
               EvReadFile "signing.key";
               EvNewUpdateRequest "ABC123";
               EvPost "http://h/file" (bytes_of_string "ABC123");
               EvFprint "id of content of a.json"]
              eq_refl)
    as (fileIdx & f
        & [(Hnp & _)
          |(_ & ids & posts & suffix & patchStr & updatePatch & keyBytes & privateKey
            & req & resp
            & _ & Hposts & _ & Hs & _ & _ & _ & _ & _ & _ & _ & _ & Htr)]).
  - discriminate Hnp.
  - exists f, ids, posts, suffix, req. split; [exact Hposts|]. split; [exact Hs|exact Htr].
Defined.

(** ** What the patch can hold *)

(** X22. The patch never removes or moves anything: every one of its
    entries is an [add] or a [replace] of a path below
    [/fileIndex/mappings/], for the name of one of the given files and with
    the ID of that file.  Mappings of the index for other names are not
    touched. *)
Theorem patch_adds_or_replaces (fileIdx : model_FileIndex) (fs : files) :
  Forall (fun p : jsonPatch =>
            (Op p = "add" \/ Op p = "replace")
            /\ exists f, f ∈ fs
                 /\ Path p = ("/fileIndex/mappings/" +:+ Name f)%string
                 /\ Value p = ID f)
         (patch_loop fileIdx fs []).
Proof.
  rewrite patch_loop_app, app_nil_l. apply Forall_forall. intros p Hp.
  apply list_elem_of_fmap in Hp as (f & -> & Hf).
  rewrite patchEntry_fields. simpl. split.
  - destruct (decide _); auto.
  - by exists f.
Qed.
